(** * automate_email.py: the retry wrapper and the row accounting

    A shallow embedding of [generate_email] and of the row loop of [main]
    from [Automate_email/automate_email.py].

    - A Python [str] is a [string] whose characters are code points below 256.
    - A cell of the data frame is a string or NaN (an empty CSV cell), as in
      a CSV file whose columns are text; the value of a variable that holds
      [None] or a [str] is an [option string].
    - The two effects of the script, the request to the chat-completions
      endpoint and [time.sleep], are written in a state monad over a world
      that logs them in order.  The endpoint is a function of the number of
      requests already served and of the request, so that it can answer the
      same request differently from one attempt to the next.
    - Console messages are not modelled, except for the three numbers of the
      final summary. *)

From Stdlib Require Import ZArith QArith List String Ascii Bool Lia.
Import ListNotations.

Open Scope Z_scope.
Open Scope list_scope.
Open Scope string_scope.

(** ** Python values *)

(** A cell read by [pd.read_csv]: text, or NaN for an empty cell. *)
Inductive cell : Type :=
| NaN : cell
| Str : string -> cell.

(** [bool(v)] of a cell: NaN is a non-zero float, a string is true when it
    has a character. *)
Definition truthy (v : cell) : bool :=
  match v with
  | NaN => true
  | Str s => negb (s =? "")
  end.

(** [pd.isna(v)]. *)
Definition isna (v : cell) : bool :=
  match v with
  | NaN => true
  | Str _ => false
  end.

(** What an f-string prints for [{v}]. *)
Definition format (v : cell) : string :=
  match v with
  | NaN => "nan"
  | Str s => s
  end.

(** [str.isspace] on one character below 256: tab to carriage return, the
    four separators 0x1c to 0x1f, the space, NEL and the no-break space. *)
Definition isspace (a : ascii) : bool :=
  let n := N_of_ascii a in
  ((9 <=? n) && (n <=? 13) || (28 <=? n) && (n <=? 32)
   || (n =? 133) || (n =? 160))%N.

Fixpoint lstrip (s : string) : string :=
  match s with
  | EmptyString => EmptyString
  | String a s' => if isspace a then lstrip s' else s
  end.

Fixpoint reverse (acc s : string) : string :=
  match s with
  | EmptyString => acc
  | String a s' => reverse (String a acc) s'
  end.

Definition rstrip (s : string) : string :=
  reverse "" (lstrip (reverse "" s)).

(** [s.strip()]. *)
Definition strip (s : string) : string := rstrip (lstrip s).

Definition newline : string := String (ascii_of_nat 10) "".

(** The lines of a triple-quoted literal, joined again. *)
Definition unlines (ls : list string) : string := String.concat newline ls.

(** [range(n)]. *)
Definition range (n : Z) : list Z := map Z.of_nat (seq 0 (Z.to_nat n)).

(** ** Rows of the data frame *)

(** A row maps column labels to cells. *)
Definition row : Type := list (string * cell).

(** [row.get(label, default)]. *)
Fixpoint get (r : row) (label : string) (default : cell) : cell :=
  match r with
  | [] => default
  | (k, v) :: r' => if k =? label then v else get r' label default
  end.

(** [df.head(n)] for [n > 0]. *)
Definition head (n : Z) (df : list row) : list row := firstn (Z.to_nat n) df.

(** ** The world: the endpoint and the clock *)

(** The arguments of [client.chat.completions.create]. *)
Record request : Type := mkRequest {
  req_model : string;
  req_system : string;
  req_user : string;
  req_max_tokens : Z;
  req_temperature : Q
}.

(** What the body of the [try] block comes to: the content of the first
    choice, or an [Exception] with its [str(e)]. *)
Inductive outcome : Type :=
| Content : string -> outcome
| Raised : string -> outcome.

Inductive event : Type :=
| Call : request -> event
| Sleep : Q -> event.

Record World : Type := mkWorld {
  served : nat;
  log : list event
}.

Definition boot : World := {| served := 0; log := [] |}.

Definition M (A : Type) : Type := World -> A * World.

Definition ret {A : Type} (a : A) : M A := fun w => (a, w).

Definition bind {A B : Type} (c : M A) (k : A -> M B) : M B :=
  fun w => let (a, w') := c w in k a w'.

Declare Scope monad_scope.
Delimit Scope monad_scope with monad.
Notation "x <- c ;; k" := (bind c (fun x => k))
  (at level 61, c at next level, right associativity) : monad_scope.
Notation "c ;;; k" := (bind c (fun _ => k))
  (at level 61, right associativity) : monad_scope.
Open Scope monad_scope.

(** [time.sleep(d)]. *)
Definition sleep (d : Q) : M unit :=
  fun w => (tt, {| served := served w; log := (log w ++ [Sleep d])%list |}).

Definition is_call (e : event) : bool :=
  match e with
  | Call _ => true
  | Sleep _ => false
  end.

(** The waits of a log, in order. *)
Fixpoint sleeps (l : list event) : list Q :=
  match l with
  | [] => []
  | Call _ :: l' => sleeps l'
  | Sleep d :: l' => d :: sleeps l'
  end.

(** The number of requests in a log. *)
Definition calls (l : list event) : nat := List.length (filter is_call l).

(** ** The script *)

Definition EMAIL_TEMPLATE : string :=
  unlines
    [ "";
      "Subject: AI-Powered Deal Due Diligence Platform  ";
      "Dear [Recipient's Name],  ";
      "I know you're incredibly busy and get a lot of messages, so this will only take 60 seconds to read.  ";
      "I'm developing a platform that uses AI to streamline and enhance deal due diligence for private credit firms, helping you save time, reduce risk, and identify opportunities faster. The insights we've gained from AI-driven data analysis could be incredibly valuable for your investment process.  ";
      "Have you ever thought about how AI could transform due diligence for private credit deals? I think our platform could add significant value to your firm, and I'd love to discuss whether you'd be interested in exploring a partnership or pilot.  ";
      "I totally understand if you're too busy to respond. Even a one or two-line reply will completely make my day.  ";
      "Best regards,";
      "[Your Full Name]";
      "[Your Position/Title]";
      "[Your Company/Startup Name, if applicable]";
      "[Your Email Address]";
      "[Your Phone Number, optional]";
      "" ].

(** The prefix of the marker that [generate_email] returns after its last
    attempt, and that [main] tests for. *)
Definition error_marker : string := "Error generating email".

(** One entry of [output_data]. *)
Record entry : Type := mkEntry {
  Company_Name : cell;
  Contact_Name : cell;
  Email_Content : option string
}.

(** The variables of [main] that the loop updates. *)
Record State : Type := mkState {
  output_data : list entry;
  total_contacts : Z;
  successful_emails : Z
}.

(** The three numbers printed under "Summary:". *)
Record Summary : Type := mkSummary {
  total_processed : Z;
  successful_generated : Z;
  failed : Z
}.

(** The command line, as far as the loop reads it. *)
Record Args : Type := mkArgs {
  model : string;
  limit : Z;
  dry_run : bool
}.

(** The test [not contact_name or pd.isna(contact_name)], which [main] and
    [generate_email] both make. *)
Definition skipped (contact_name : cell) : bool :=
  negb (truthy contact_name) || isna contact_name.

(** The test of [main] on [email_content]:
    [email_content and not email_content.startswith("Error generating email")]. *)
Definition usable (email_content : option string) : bool :=
  match email_content with
  | None => false
  | Some s => negb (s =? "") && negb (prefix error_marker s)
  end.

Section Script.

(** [os.getenv]. *)
Variable getenv : string -> option string.

(** The endpoint: the outcome of the request that arrives when [n]
    requests have been served. *)
Variable endpoint : nat -> request -> outcome.

Definition getenv_or (key default : string) : string :=
  match getenv key with
  | Some v => v
  | None => default
  end.

Definition YOUR_NAME : string := getenv_or "YOUR_NAME" "Your Full Name".
Definition YOUR_POSITION : string := getenv_or "YOUR_POSITION" "Your Position/Title".
Definition YOUR_COMPANY : string := getenv_or "YOUR_COMPANY" "Your Company/Startup Name".
Definition YOUR_EMAIL : string := getenv_or "YOUR_EMAIL" "your.email@example.com".
Definition YOUR_PHONE : string := getenv_or "YOUR_PHONE" "Your Phone Number".

(** [client.chat.completions.create(...)] and the reading of its answer. *)
Definition create (req : request) : M outcome :=
  fun w => (endpoint (served w) req,
            {| served := S (served w); log := (log w ++ [Call req])%list |}).

Definition prompt (company_name industry_focus contact_name position notes : cell)
  : string :=
  unlines
    [ "";
      "    Generate a personalized email based on the following template and information:";
      "    ";
      "    Template:";
      "    " ++ EMAIL_TEMPLATE;
      "    ";
      "    Information:";
      "    - Recipient's Company: " ++ format company_name;
      "    - Industry Focus: " ++ format industry_focus;
      "    - Recipient's Name: " ++ format contact_name;
      "    - Recipient's Position: " ++ format position;
      "    - Notes about recipient: " ++ format (if truthy notes && negb (isna notes) then notes else Str "No specific notes");
      "    ";
      "    Please personalize the email to make it relevant to their industry focus (" ++ format industry_focus ++ ") and position (" ++ format position ++ ").";
      "    Replace [Recipient's Name] with " ++ format contact_name ++ ".";
      "    Replace [Your Full Name] with " ++ YOUR_NAME ++ ".";
      "    Replace [Your Position/Title] with " ++ YOUR_POSITION ++ ".";
      "    Replace [Your Company/Startup Name, if applicable] with " ++ YOUR_COMPANY ++ ".";
      "    Replace [Your Email Address] with " ++ YOUR_EMAIL ++ ".";
      "    Replace [Your Phone Number, optional] with " ++ YOUR_PHONE ++ ".";
      "    ";
      "    Make the email concise, professional, and personalized based on the recipient's information.";
      "    " ].

Definition chat_request (model prompt : string) : request :=
  {| req_model := model;
     req_system := "You are an assistant that generates personalized professional emails.";
     req_user := prompt;
     req_max_tokens := 1000;
     req_temperature := (7 # 10)%Q |}.

(** The [for attempt in range(max_retries)] loop, over what is left of the
    range.  When the range is used up the function falls off its end and
    returns [None]. *)
Fixpoint attempts (req : request) (max_retries : Z) (todo : list Z)
    (retry_delay : Z) : M (option string) :=
  match todo with
  | [] => ret None
  | attempt :: todo' =>
      r <- create req ;;
      match r with
      | Content c => ret (Some (strip c))
      | Raised e =>
          if (attempt <? max_retries - 1)%Z then
            sleep (inject_Z retry_delay) ;;;
            attempts req max_retries todo' (retry_delay * 2)
          else
            ret (Some ("Error generating email: " ++ e))
      end
  end.

Definition generate_email
    (company_name industry_focus contact_name position notes : cell)
    (model : string) : M (option string) :=
  if skipped contact_name then ret None
  else
    let prompt := prompt company_name industry_focus contact_name position notes in
    let max_retries := 3 in
    let retry_delay := 5 in
    attempts (chat_request model prompt) max_retries (range max_retries) retry_delay.

(** The body of [for index, row in df.iterrows()]. *)
Definition iteration (args : Args) (row : row) (st : State) : M State :=
  let company_name := get row "Company Name" (Str "") in
  let industry_focus := get row "Industry Focus" (Str "") in
  let contact_name := get row "Contact Name" (Str "") in
  let position := get row "Position / Role" (Str "") in
  let notes := get row "Notes" (Str "") in
  if skipped contact_name then ret st
  else
    let total_contacts := total_contacts st + 1 in
    ec <- (if dry_run args then
             ret (Some ("[DRY RUN] Sample email for " ++ format contact_name),
                  successful_emails st + 1)
           else
             email_content <- generate_email company_name industry_focus
                                contact_name position notes (model args) ;;
             ret (email_content, successful_emails st)) ;;
    let (email_content, successful_emails) := ec : option string * Z in
    if usable email_content then
      let successful_emails := successful_emails + 1 in
      let output_data :=
        (output_data st ++
           [ {| Company_Name := company_name;
                Contact_Name := contact_name;
                Email_Content := email_content |} ])%list in
      (if negb (dry_run args) then sleep (1 # 2)%Q else ret tt) ;;;
      ret {| output_data := output_data;
             total_contacts := total_contacts;
             successful_emails := successful_emails |}
    else
      ret {| output_data := output_data st;
             total_contacts := total_contacts;
             successful_emails := successful_emails |}.

Fixpoint iterrows (args : Args) (df : list row) (st : State) : M State :=
  match df with
  | [] => ret st
  | row :: df' => st' <- iteration args row st ;; iterrows args df' st'
  end.

(** [main], from the data frame that [pd.read_csv] returned to the list
    that is written out and the summary that is printed. *)
Definition main (args : Args) (df : list row) : M (list entry * Summary) :=
  let st := {| output_data := []; total_contacts := 0; successful_emails := 0 |} in
  let df := if (limit args >? 0)%Z then head (limit args) df else df in
  st <- iterrows args df st ;;
  ret (output_data st,
       {| total_processed := total_contacts st;
          successful_generated := successful_emails st;
          failed := total_contacts st - successful_emails st |}).

End Script.

Arguments iteration getenv endpoint args row st : simpl never.
Arguments prompt getenv company_name industry_focus contact_name position notes : simpl never.

(** ** What the claims speak of *)

(** A contact name that is present and not empty. *)
Definition nonempty_name (contact_name : cell) : bool :=
  match contact_name with
  | Str (String _ _) => true
  | _ => false
  end.

Definition contact_of (r : row) : cell := get r "Contact Name" (Str "").

(** The records that count as contacts. *)
Definition named (r : row) : bool := nonempty_name (contact_of r).

(** The rows that are left once the row limit, when it is set, is applied. *)
Definition considered (n : Z) (df : list row) : list row :=
  if (0 <? n)%Z then firstn (Z.to_nat n) df else df.


(** The same command line without a row limit. *)
Definition unlimited (args : Args) : Args :=
  {| model := model args; limit := 0; dry_run := dry_run args |}.

(** The placeholder of a simulated run. *)
Definition placeholder (r : row) : option string :=
  Some ("[DRY RUN] Sample email for " ++ format (contact_of r)).

(** The entry that [main] appends for a row. *)
Definition entry_of (r : row) (email_content : option string) : entry :=
  {| Company_Name := get r "Company Name" (Str "");
     Contact_Name := contact_of r;
     Email_Content := email_content |}.

Section Calls.

Variable getenv : string -> option string.
Variable endpoint : nat -> request -> outcome.

(** The request that [generate_email] sends for a row. *)
Definition request_of (args : Args) (r : row) : request :=
  chat_request (model args)
    (prompt getenv (get r "Company Name" (Str "")) (get r "Industry Focus" (Str ""))
       (contact_of r) (get r "Position / Role" (Str ""))
       (get r "Notes" (Str ""))).

(** The call of [generate_email] that [main] makes for a row. *)
Definition generate_for (args : Args) (r : row) : M (option string) :=
  generate_email getenv endpoint
    (get r "Company Name" (Str "")) (get r "Industry Focus" (Str ""))
    (contact_of r) (get r "Position / Role" (Str ""))
    (get r "Notes" (Str "")) (model args).

End Calls.

(** The waits of one half second in a log. *)
Definition fixed_waits (l : list event) : Z :=
  Z.of_nat (List.length (filter (fun d => Qeq_bool d (1 # 2)) (sleeps l))).


(** ** Inputs for the examples *)

Definition no_environment : string -> option string := fun _ => None.

(** An endpoint that is down. *)
Definition always_fails : nat -> request -> outcome :=
  fun _ _ => Raised "Connection error.".

(** An endpoint that turns down its first two requests. *)
Definition fails_twice : nat -> request -> outcome :=
  fun n _ =>
    if (n <? 2)%nat then Raised "Rate limit reached"
    else Content " Subject: AI-Powered Deal Due Diligence Platform ".

(** An endpoint whose answer starts like the error marker. *)
Definition answers_like_marker : nat -> request -> outcome :=
  fun _ _ => Content "Error generating email reports is costly for any lender.".

Definition alice : row :=
  [ ("Company Name", Str "Acme Credit"); ("Industry Focus", Str "Direct lending");
    ("Contact Name", Str "Alice"); ("Position / Role", Str "Partner");
    ("Notes", NaN) ].

Definition bob : row :=
  [ ("Company Name", Str "Birch Capital"); ("Industry Focus", Str "Mezzanine");
    ("Contact Name", Str "Bob"); ("Position / Role", Str "Analyst");
    ("Notes", Str "Met in May") ].

(** A row whose contact cell was left empty in the CSV file. *)
Definition nameless : row :=
  [ ("Company Name", Str "Cedar Partners"); ("Industry Focus", NaN);
    ("Contact Name", NaN); ("Position / Role", NaN); ("Notes", NaN) ].

Definition live : Args := {| model := "gpt-4"; limit := 0; dry_run := false |}.

Definition simulated : Args := {| model := "gpt-4"; limit := 0; dry_run := true |}.

Definition live_first (n : Z) : Args :=
  {| model := "gpt-4"; limit := n; dry_run := false |}.

Definition start : State :=
  {| output_data := []; total_contacts := 0; successful_emails := 0 |}.

(** What holds of every entry of [output_data]. *)
Definition kept (e : entry) : Prop :=
  nonempty_name (Contact_Name e) = true /\ usable (Email_Content e) = true.

(** The log of a call that fails twice, or three times. *)
Definition three_attempts (req : request) : list event :=
  [Call req; Sleep 5; Call req; Sleep 10; Call req].

(** ** What the further properties speak of *)

(** The log of [k] attempts that fail and are retried, and of the attempt
    after them: the wait between two requests starts at [retry_delay] and
    doubles. *)
Fixpoint retry_log (req : request) (retry_delay : Z) (k : nat) : list event :=
  match k with
  | O => [Call req]
  | S k' =>
      Call req :: Sleep (inject_Z retry_delay) :: retry_log req (retry_delay * 2) k'
  end.

Definition first_char (s : string) : option ascii :=
  match s with
  | EmptyString => None
  | String a _ => Some a
  end.

Fixpoint last_char (s : string) : option ascii :=
  match s with
  | EmptyString => None
  | String a EmptyString => Some a
  | String _ s' => last_char s'
  end.

(** A string that neither starts nor ends with a whitespace character. *)
Definition trimmed (s : string) : bool :=
  match first_char s, last_char s with
  | Some a, Some b => negb (isspace a) && negb (isspace b)
  | _, _ => true
  end.

(** A string of whitespace characters only. *)
Fixpoint blank (s : string) : bool :=
  match s with
  | EmptyString => true
  | String a s' => isspace a && blank s'
  end.

(** The columns of an entry that come from the row. *)
Definition entry_key (e : entry) : cell * cell := (Company_Name e, Contact_Name e).

Definition row_key (r : row) : cell * cell :=
  (get r "Company Name" (Str ""), contact_of r).

(** [l1] is [l2] with some of its elements left out. *)
Inductive subseq {A : Type} : list A -> list A -> Prop :=
| subseq_nil : subseq [] []
| subseq_skip (x : A) (l1 l2 : list A) : subseq l1 l2 -> subseq l1 (x :: l2)
| subseq_keep (x : A) (l1 l2 : list A) : subseq l1 l2 -> subseq (x :: l1) (x :: l2).

(** The events that a run over the rows [rows] may log. *)
Definition expected_event
    (getenv : string -> option string) (args : Args) (rows : list row)
    (e : event) : Prop :=
  match e with
  | Call req => exists r, In r rows /\ named r = true /\ req = request_of getenv args r
  | Sleep d => d = 5%Q \/ d = 10%Q \/ d = (1 # 2)%Q
  end.

(** What the loop adds while it goes over some rows: entries, events,
    contacts, successes and served requests. *)
Record effect : Type := mkEffect {
  new_entries : list entry;
  new_events : list event;
  new_contacts : Z;
  new_successes : Z;
  new_served : nat
}.

Definition apply_effect (x : effect) (st : State) (w : World) : State * World :=
  ({| output_data := output_data st ++ new_entries x;
      total_contacts := total_contacts st + new_contacts x;
      successful_emails := successful_emails st + new_successes x |},
   {| served := new_served x + served w; log := log w ++ new_events x |}).

Definition no_effect : effect :=
  {| new_entries := []; new_events := []; new_contacts := 0; new_successes := 0;
     new_served := 0 |}.

Definition then_effect (x y : effect) : effect :=
  {| new_entries := new_entries x ++ new_entries y;
     new_events := new_events x ++ new_events y;
     new_contacts := new_contacts x + new_contacts y;
     new_successes := new_successes x + new_successes y;
     new_served := new_served x + new_served y |}.

(** An entry whose text has no whitespace at either end. *)
Definition trimmed_entry (e : entry) : Prop :=
  exists s, Email_Content e = Some s /\ trimmed s = true.

(** What holds of the effect of the loop over the rows [df]. *)
Definition sound_effect
    (getenv : string -> option string) (args : Args) (df : list row)
    (x : effect) : Prop :=
  new_contacts x = Z.of_nat (List.length (filter named df)) /\
  subseq (map entry_key (new_entries x)) (map row_key (filter named df)) /\
  Forall kept (new_entries x) /\
  Forall (expected_event getenv args df) (new_events x) /\
  new_served x = calls (new_events x) /\
  (dry_run args = true ->
   new_events x = [] /\ new_successes x = 2 * new_contacts x /\
   Z.of_nat (List.length (new_entries x)) = new_contacts x) /\
  (dry_run args = false ->
   new_contacts x <= Z.of_nat (new_served x) <= 3 * new_contacts x /\
   new_successes x = Z.of_nat (List.length (new_entries x)) /\
   new_successes x = fixed_waits (new_events x) /\
   0 <= new_successes x <= new_contacts x /\
   Forall trimmed_entry (new_entries x)).

(** How a run of the script ends: after the message about the input file;
    with the exception that [to_csv] raised, before any summary; or after
    the summary, with the rows that were written when there were any. *)
Inductive report : Type :=
| Aborted : string -> report
| Crashed : string -> report
| Finished : option (list entry) -> Summary -> report.

(** [main] with its two files.  [read_csv] is what [pd.read_csv] comes to:
    the text of the exception it raised, which [main] catches, or the data
    frame.  [to_csv] is what [output_df.to_csv(output_csv_path, index=False)]
    comes to for the rows it is given: [None] when the file is written, the
    text of the exception otherwise; no handler is around that call, so the
    exception ends the run ahead of the summary.  With no entry the file is
    not touched. *)
Definition main_with_files
    (getenv : string -> option string) (endpoint : nat -> request -> outcome)
    (to_csv : list entry -> option string)
    (args : Args) (read_csv : string + list row) : M report :=
  match read_csv with
  | inl e => ret (Aborted ("Error reading CSV file: " ++ e))
  | inr df =>
      res <- main getenv endpoint args df ;;
      match fst res with
      | [] => ret (Finished None (snd res))
      | _ :: _ =>
          match to_csv (fst res) with
          | None => ret (Finished (Some (fst res)) (snd res))
          | Some e => ret (Crashed e)
          end
      end
  end.

(** An output path that can be written. *)
Definition writable : list entry -> option string := fun _ => None.

(** An output path in a directory that does not exist. *)
Definition no_such_directory : list entry -> option string :=
  fun _ => Some "Cannot save file into a non-existent directory".

(** An endpoint that answers at once. *)
Definition answers (text : string) : nat -> request -> outcome :=
  fun _ _ => Content text.

(** An endpoint that fails once for every contact before it answers. *)
Definition fails_every_other : nat -> request -> outcome :=
  fun n _ => if Nat.even n then Raised "Timeout" else Content "Dear reader".

(** A row of a file whose contact column has another label. *)
Definition mislabelled : row :=
  [ ("Company Name", Str "Dune Credit"); ("contact name", Str "Dana") ].

Definition simulated_first (n : Z) : Args :=
  {| model := "gpt-4"; limit := n; dry_run := true |}.

(** ** Strings and tests *)

Lemma skipped_nonempty_name (c : cell) : skipped c = negb (nonempty_name c).
Proof. destruct c as [|[|a s]]; reflexivity. Qed.

Lemma usable_marker (e : string) : usable (Some ("Error generating email: " ++ e)) = false.
Proof. vm_compute. reflexivity. Qed.

Lemma usable_placeholder (r : row) : usable (placeholder r) = true.
Proof. vm_compute. reflexivity. Qed.

Lemma usable_spec (v : option string) :
  usable v = true <->
  exists s, v = Some s /\ s <> "" /\ prefix error_marker s = false.
Proof.
  destruct v as [s|]; simpl.
  - rewrite andb_true_iff, !negb_true_iff. split.
    + intros [Hne Hp]. exists s. repeat split; trivial.
      apply String.eqb_neq. exact Hne.
    + intros (s' & Hs & Hne & Hp). injection Hs as ->. split; trivial.
      apply String.eqb_neq. exact Hne.
  - split; [discriminate | intros (s & Hs & _); discriminate].
Qed.

(** ** Logs *)

Lemma sleeps_app (l1 l2 : list event) : sleeps (l1 ++ l2) = (sleeps l1 ++ sleeps l2)%list.
Proof.
  induction l1 as [|[req|d] l1 IH]; simpl; trivial. now rewrite IH.
Qed.

Lemma fixed_waits_app (l1 l2 : list event) :
  fixed_waits (l1 ++ l2) = fixed_waits l1 + fixed_waits l2.
Proof.
  unfold fixed_waits. rewrite sleeps_app, filter_app, length_app. lia.
Qed.

Lemma calls_app (l1 l2 : list event) : calls (l1 ++ l2) = (calls l1 + calls l2)%nat.
Proof. unfold calls. now rewrite filter_app, length_app. Qed.

(** ** The retry loop *)

Section Retry.

Variable getenv : string -> option string.
Variable endpoint : nat -> request -> outcome.

#[local] Abbreviation attempts := (attempts endpoint).

Lemma range_3 : range 3 = [0; 1; 2].
Proof. reflexivity. Qed.

(** A first attempt that succeeds: one request, no wait. *)
Lemma attempts_first_success (req : request) (w : World) (c : string) :
  endpoint (served w) req = Content c ->
  attempts req 3 (range 3) 5 w =
    (Some (strip c),
     {| served := S (served w); log := log w ++ [Call req] |}).
Proof.
  intros H. rewrite range_3. unfold attempts. simpl.
  unfold bind, create. rewrite H. reflexivity.
Qed.

(** Two failures, then a success. *)
Lemma attempts_third_success (req : request) (w : World) (e1 e2 c : string) :
  endpoint (served w) req = Raised e1 ->
  endpoint (S (served w)) req = Raised e2 ->
  endpoint (S (S (served w))) req = Content c ->
  attempts req 3 (range 3) 5 w =
    (Some (strip c),
     {| served := 3 + served w; log := log w ++ three_attempts req |}).
Proof.
  intros H1 H2 H3. rewrite range_3. unfold attempts. simpl.
  unfold bind, create, sleep, ret; simpl.
  rewrite H1; simpl. rewrite H2; simpl. rewrite H3; simpl.
  unfold three_attempts. rewrite <- !app_assoc. reflexivity.
Qed.

(** Three failures. *)
Lemma attempts_exhausted (req : request) (w : World) (e1 e2 e3 : string) :
  endpoint (served w) req = Raised e1 ->
  endpoint (S (served w)) req = Raised e2 ->
  endpoint (S (S (served w))) req = Raised e3 ->
  attempts req 3 (range 3) 5 w =
    (Some ("Error generating email: " ++ e3),
     {| served := 3 + served w; log := log w ++ three_attempts req |}).
Proof.
  intros H1 H2 H3. rewrite range_3. unfold attempts. simpl.
  unfold bind, create, sleep, ret; simpl.
  rewrite H1; simpl. rewrite H2; simpl. rewrite H3; simpl.
  unfold three_attempts. rewrite <- !app_assoc. reflexivity.
Qed.

(** Whatever the endpoint does, three attempts return a string: the loop
    never falls off its end. *)
Lemma attempts_returns_str (req : request) (w : World) :
  exists s, fst (attempts req 3 (range 3) 5 w) = Some s.
Proof.
  rewrite range_3. unfold attempts. simpl. unfold bind, create, sleep, ret; simpl.
  destruct (endpoint (served w) req); simpl; eauto.
  destruct (endpoint (S (served w)) req); simpl; eauto.
  destruct (endpoint (S (S (served w))) req); simpl; eauto.
Qed.

(** With a contact name, [generate_email] is its retry loop. *)
Lemma generate_email_named (cn ind name pos notes : cell) (mdl : string) :
  nonempty_name name = true ->
  generate_email getenv endpoint cn ind name pos notes mdl =
    attempts (chat_request mdl (prompt getenv cn ind name pos notes)) 3 (range 3) 5.
Proof.
  intros H. unfold generate_email. rewrite skipped_nonempty_name, H. reflexivity.
Qed.

End Retry.

(** ** One row *)

Section Row.

Variable getenv : string -> option string.
Variable endpoint : nat -> request -> outcome.

#[local] Abbreviation iteration := (iteration getenv endpoint).
#[local] Abbreviation generate_for := (generate_for getenv endpoint).

(** A row without a contact name changes nothing. *)
Lemma iteration_skipped (args : Args) (r : row) (st : State) (w : World) :
  named r = false -> iteration args r st w = (st, w).
Proof.
  intros H. unfold iteration.
  fold (contact_of r). rewrite skipped_nonempty_name.
  unfold named in H. rewrite H. reflexivity.
Qed.

(** A contact in a simulated run: an entry, and two increments of
    [successful_emails]. *)
Lemma iteration_dry (args : Args) (r : row) (st : State) (w : World) :
  named r = true -> dry_run args = true ->
  iteration args r st w =
    ({| output_data := output_data st ++ [entry_of r (placeholder r)];
        total_contacts := total_contacts st + 1;
        successful_emails := successful_emails st + 1 + 1 |}, w).
Proof.
  intros H Hd. unfold iteration.
  fold (contact_of r). rewrite skipped_nonempty_name.
  unfold named in H. rewrite H, Hd. cbn [negb]. cbv beta iota.
  unfold bind, ret. fold (placeholder r). rewrite usable_placeholder.
  reflexivity.
Qed.

(** A contact in a live run. *)
Lemma iteration_live (args : Args) (r : row) (st : State) (w : World) :
  named r = true -> dry_run args = false ->
  iteration args r st w =
    let (v, w1) := generate_for args r w in
    if usable v then
      ({| output_data := output_data st ++ [entry_of r v];
          total_contacts := total_contacts st + 1;
          successful_emails := successful_emails st + 1 |},
       {| served := served w1; log := log w1 ++ [Sleep (1 # 2)] |})
    else
      ({| output_data := output_data st;
          total_contacts := total_contacts st + 1;
          successful_emails := successful_emails st |}, w1).
Proof.
  intros H Hd. unfold iteration.
  fold (contact_of r). rewrite skipped_nonempty_name.
  unfold named in H. rewrite H, Hd. cbn [negb]. cbv beta iota.
  unfold generate_for, bind, ret. fold (contact_of r).
  destruct (generate_email _ _ _ _ _ _ _ _ w) as [v w1].
  destruct (usable v); reflexivity.
Qed.

End Row.

(** ** The loop over the rows *)

(** The three ways through the body of the loop: a skipped row, a contact
    of a simulated run, and a contact of a live run, with or without a
    usable result. *)
Ltac by_row getenv endpoint args r st w Hn Hd v w1 Hg Hu :=
  destruct (named r) eqn:Hn;
  [ destruct (dry_run args) eqn:Hd;
    [ rewrite (iteration_dry getenv endpoint args r st w Hn Hd)
    | rewrite (iteration_live getenv endpoint args r st w Hn Hd);
      destruct (generate_for getenv endpoint args r w) as [v w1] eqn:Hg;
      destruct (usable v) eqn:Hu ]
  | rewrite (iteration_skipped getenv endpoint args r st w Hn) ].

Section Loop.

Variable getenv : string -> option string.
Variable endpoint : nat -> request -> outcome.

#[local] Abbreviation iteration := (iteration getenv endpoint).
#[local] Abbreviation iterrows := (iterrows getenv endpoint).
#[local] Abbreviation main := (main getenv endpoint).

Lemma iterrows_cons (args : Args) (r : row) (df : list row) (st : State) (w : World) :
  iterrows args (r :: df) st w =
    iterrows args df (fst (iteration args r st w)) (snd (iteration args r st w)).
Proof.
  simpl. unfold bind. destruct (iteration args r st w). reflexivity.
Qed.

(** Rows without a contact name can be dropped from the data frame. *)
Lemma iterrows_filter (args : Args) (df : list row) (st : State) (w : World) :
  iterrows args df st w = iterrows args (filter named df) st w.
Proof.
  revert st w. induction df as [|r df IH]; intros st w.
  - reflexivity.
  - cbn [filter]. destruct (named r) eqn:Hn.
    + rewrite !iterrows_cons. apply IH.
    + rewrite iterrows_cons, (iteration_skipped _ _ _ _ _ _ Hn). apply IH.
Qed.

(** The loop only reads the model and the mode of the command line. *)
Lemma iterrows_unlimited (args : Args) (df : list row) (st : State) (w : World) :
  iterrows (unlimited args) df st w = iterrows args df st w.
Proof.
  revert st w. induction df as [|r df IH]; intros st w.
  - reflexivity.
  - rewrite !iterrows_cons.
    replace (iteration (unlimited args) r st w) with (iteration args r st w)
      by reflexivity.
    apply IH.
Qed.

(** [main] is the loop over the considered rows, from the empty state. *)
Lemma main_considered (args : Args) (df : list row) (w : World) :
  main args df w =
    let (st, w') :=
      iterrows args (considered (limit args) df)
        {| output_data := []; total_contacts := 0; successful_emails := 0 |} w in
    (output_data st,
     {| total_processed := total_contacts st;
        successful_generated := successful_emails st;
        failed := total_contacts st - successful_emails st |}, w').
Proof.
  unfold main, considered, head, bind, ret.
  rewrite Z.gtb_ltb. reflexivity.
Qed.

Lemma considered_unlimited (df : list row) : considered 0 df = df.
Proof. reflexivity. Qed.

Lemma considered_limit (n : Z) (df : list row) :
  0 < n -> considered n df = firstn (Z.to_nat n) df.
Proof.
  intros H. unfold considered. apply Z.ltb_lt in H. rewrite H. reflexivity.
Qed.

(** [total_contacts] goes up by one for each contact. *)
Lemma iterrows_total (args : Args) (df : list row) (st : State) (w : World) :
  total_contacts (fst (iterrows args df st w)) =
    total_contacts st + Z.of_nat (List.length (filter named df)).
Proof.
  revert st w. induction df as [|r df IH]; intros st w.
  - simpl. lia.
  - rewrite iterrows_cons, IH. cbn [filter].
    by_row getenv endpoint args r st w Hn Hd v w1 Hg Hu;
      cbn [fst snd total_contacts List.length]; lia.
Qed.

Lemma iterrows_kept (args : Args) (df : list row) (st : State) (w : World) :
  Forall kept (output_data st) ->
  Forall kept (output_data (fst (iterrows args df st w))).
Proof.
  revert st w. induction df as [|r df IH]; intros st w H.
  - exact H.
  - rewrite iterrows_cons. apply IH.
    by_row getenv endpoint args r st w Hn Hd v w1 Hg Hu;
      cbn [fst snd output_data]; trivial;
      apply Forall_app; split; trivial;
      repeat constructor; trivial; apply usable_placeholder.
Qed.

End Loop.

(** ** Simulated runs *)

Section Simulated.

Variable getenv : string -> option string.
Variable endpoint : nat -> request -> outcome.

#[local] Abbreviation iterrows := (iterrows getenv endpoint).
#[local] Abbreviation main := (main getenv endpoint).

(** A simulated loop leaves the world as it is, appends the placeholder of
    every contact, and adds two to [successful_emails] for each. *)
Lemma iterrows_dry (args : Args) (df : list row) (st : State) (w : World) :
  dry_run args = true ->
  iterrows args df st w =
    ({| output_data :=
          output_data st ++ map (fun r => entry_of r (placeholder r)) (filter named df);
        total_contacts := total_contacts st + Z.of_nat (List.length (filter named df));
        successful_emails :=
          successful_emails st + 2 * Z.of_nat (List.length (filter named df)) |}, w).
Proof.
  intros Hd. revert st. induction df as [|r df IH]; intros st.
  - simpl. unfold ret. destruct st; simpl. rewrite app_nil_r, !Z.add_0_r. reflexivity.
  - rewrite iterrows_cons. cbn [filter]. destruct (named r) eqn:Hn.
    + rewrite (iteration_dry getenv endpoint args r st w Hn Hd). cbn [fst snd].
      rewrite IH. cbn [output_data total_contacts successful_emails map List.length].
      rewrite <- app_assoc. cbn [app]. f_equal. f_equal; lia.
    + rewrite (iteration_skipped getenv endpoint args r st w Hn). cbn [fst snd].
      apply IH.
Qed.

(** The summary of a simulated run: no request, no wait, one entry for each
    contact, and twice as many successes as contacts. *)
Lemma main_dry (args : Args) (df : list row) (w : World) :
  dry_run args = true ->
  let k := Z.of_nat (List.length (filter named (considered (limit args) df))) in
  main args df w =
    (map (fun r => entry_of r (placeholder r)) (filter named (considered (limit args) df)),
     {| total_processed := k; successful_generated := 2 * k; failed := k - 2 * k |}, w).
Proof.
  intros Hd k. rewrite main_considered, (iterrows_dry _ _ _ _ Hd). reflexivity.
Qed.

End Simulated.

(** ** Live runs *)

Section Live.

Variable getenv : string -> option string.
Variable endpoint : nat -> request -> outcome.

#[local] Abbreviation attempts := (attempts endpoint).
#[local] Abbreviation generate_for := (generate_for getenv endpoint).
#[local] Abbreviation iterrows := (iterrows getenv endpoint).
#[local] Abbreviation main := (main getenv endpoint).

(** The waits of the retry loop are backoff waits. *)
Lemma attempts_fixed_waits (req : request) (w : World) :
  fixed_waits (log (snd (attempts req 3 (range 3) 5 w))) = fixed_waits (log w).
Proof.
  rewrite range_3. simpl. unfold bind, create, sleep, ret; simpl.
  destruct (endpoint (served w) req); simpl;
    [|destruct (endpoint (S (served w)) req); simpl;
      [|destruct (endpoint (S (S (served w))) req); simpl]];
    rewrite ?fixed_waits_app; cbn; lia.
Qed.

Lemma generate_for_fixed_waits (args : Args) (r : row) (w : World) :
  fixed_waits (log (snd (generate_for args r w))) = fixed_waits (log w).
Proof.
  unfold generate_for, generate_email.
  destruct (skipped (contact_of r)); [reflexivity|].
  apply attempts_fixed_waits.
Qed.

(** In a live loop the successes, the entries and the waits of one half
    second go up together, and no faster than the contacts. *)
Lemma iterrows_live (args : Args) (df : list row) (st : State) (w : World) :
  dry_run args = false ->
  let st' := fst (iterrows args df st w) in
  let w' := snd (iterrows args df st w) in
  let d := successful_emails st' - successful_emails st in
  0 <= d <= total_contacts st' - total_contacts st /\
  Z.of_nat (List.length (output_data st')) = Z.of_nat (List.length (output_data st)) + d /\
  fixed_waits (log w') = fixed_waits (log w) + d.
Proof.
  intros Hd. revert st w. induction df as [|r df IH]; intros st w.
  - simpl. lia.
  - rewrite !iterrows_cons. cbv zeta in IH |- *.
    destruct (named r) eqn:Hn.
    + rewrite (iteration_live getenv endpoint args r st w Hn Hd).
      pose proof (generate_for_fixed_waits args r w) as Hf.
      destruct (generate_for args r w) as [v w1]. cbn [snd] in Hf.
      destruct (usable v);
        match goal with
        | |- context [iterrows args df ?s ?x] => specialize (IH s x)
        end;
        cbn [fst snd output_data total_contacts successful_emails log] in IH |- *;
        rewrite ?fixed_waits_app, ?length_app in IH; cbn in IH; lia.
    + rewrite (iteration_skipped getenv endpoint args r st w Hn). apply IH.
Qed.

End Live.

(** ** The properties of the specification *)

(** C1. A simulated run sends no request and keeps every contact, yet its
    summary does not report as many successes as contacts: the simulated
    branch adds one to [successful_emails], and the test on [email_content]
    that follows adds one again.  For the single contact [alice] the summary
    reads 1 contact, 2 successful, -1 failed. *)
Theorem dry_run_counts_a_contact_twice
    (getenv : string -> option string) (endpoint : nat -> request -> outcome) :
  main getenv endpoint simulated [alice] boot =
    ([entry_of alice (Some "[DRY RUN] Sample email for Alice")],
     {| total_processed := 1; successful_generated := 2; failed := -1 |},
     boot).
Proof. reflexivity. Qed.

(** C2. With a contact name, when the endpoint fails twice and then answers,
    [generate_email] sends three requests, waits 5 and then 10 seconds
    between them, and returns the stripped content of the answer. *)
Theorem generate_email_retries_twice
    (getenv : string -> option string) (endpoint : nat -> request -> outcome)
    (company_name industry_focus contact_name position notes : cell)
    (model : string) (w : World) (e1 e2 c : string) :
  let req :=
    chat_request model
      (prompt getenv company_name industry_focus contact_name position notes) in
  let r :=
    generate_email getenv endpoint company_name industry_focus contact_name
      position notes model w in
  nonempty_name contact_name = true ->
  endpoint (served w) req = Raised e1 ->
  endpoint (S (served w)) req = Raised e2 ->
  endpoint (S (S (served w))) req = Content c ->
  fst r = Some (strip c) /\
  served (snd r) = (3 + served w)%nat /\
  log (snd r) = (log w ++ [Call req; Sleep 5; Call req; Sleep 10; Call req])%list /\
  calls (log (snd r)) = (calls (log w) + 3)%nat /\
  sleeps (log (snd r)) = (sleeps (log w) ++ [5%Q; 10%Q])%list.
Proof.
  intros req r Hn H1 H2 H3. subst r.
  rewrite (generate_email_named getenv endpoint _ _ _ _ _ _ Hn).
  fold req. rewrite (attempts_third_success endpoint req w e1 e2 c H1 H2 H3).
  cbn [fst snd served log]. rewrite calls_app, sleeps_app.
  repeat split.
Qed.

(** C3. With a contact name, when the endpoint fails three times in a row,
    [generate_email] sends three requests and returns the error marker
    followed by the text of the last failure; [main] counts the contact,
    keeps no entry for it and goes on with the next row. *)
Theorem retry_exhaustion
    (getenv : string -> option string) (endpoint : nat -> request -> outcome)
    (args : Args) (r : row) (rest : list row) (st : State) (w : World)
    (e1 e2 e3 : string) :
  let req := request_of getenv args r in
  let w' := {| served := 3 + served w; log := log w ++ three_attempts req |} in
  named r = true ->
  dry_run args = false ->
  endpoint (served w) req = Raised e1 ->
  endpoint (S (served w)) req = Raised e2 ->
  endpoint (S (S (served w))) req = Raised e3 ->
  generate_for getenv endpoint args r w = (Some ("Error generating email: " ++ e3), w') /\
  calls (log w') = (calls (log w) + 3)%nat /\
  iterrows getenv endpoint args (r :: rest) st w =
    iterrows getenv endpoint args rest
      {| output_data := output_data st;
         total_contacts := total_contacts st + 1;
         successful_emails := successful_emails st |} w'.
Proof.
  intros req w' Hn Hd H1 H2 H3.
  assert (Hg : generate_for getenv endpoint args r w =
               (Some ("Error generating email: " ++ e3), w')).
  { unfold generate_for. rewrite (generate_email_named getenv endpoint _ _ _ _ _ _ Hn).
    apply (attempts_exhausted endpoint req w e1 e2 e3 H1 H2 H3). }
  split; [exact Hg|]. split; [subst w'; cbn [log]; now rewrite calls_app|].
  rewrite iterrows_cons, (iteration_live getenv endpoint args r st w Hn Hd), Hg.
  rewrite usable_marker. reflexivity.
Qed.

(** C4. For a processed record the value [v] that the loop holds for it
    (the result of [generate_email], or the placeholder of a simulated run)
    passes the test of [main] exactly when it is a non-empty string that
    does not start with the error marker.  The test then adds exactly one to
    [successful_emails] and appends the entry; otherwise it adds nothing and
    keeps nothing.  In a live run a usable value is one more success and no
    more failure, any other value is one more failure and no more success;
    in a simulated run the branch before the test has added one already.
    So an answer of the endpoint that starts with the marker is counted as
    a failure. *)
Theorem counted_iff_usable
    (getenv : string -> option string) (endpoint : nat -> request -> outcome)
    (args : Args) (r : row) (st : State) (w : World) :
  let v :=
    if dry_run args then placeholder r
    else fst (generate_for getenv endpoint args r w) in
  let st' := fst (iteration getenv endpoint args r st w) in
  let failures (s : State) := total_contacts s - successful_emails s in
  named r = true ->
  total_contacts st' = total_contacts st + 1 /\
  (usable v = true <->
   exists s, v = Some s /\ s <> "" /\ prefix error_marker s = false) /\
  successful_emails st' =
    successful_emails st + (if dry_run args then 1 else 0)
    + (if usable v then 1 else 0) /\
  output_data st' =
    (if usable v then output_data st ++ [entry_of r v] else output_data st)%list /\
  (dry_run args = false -> usable v = true ->
   successful_emails st' = successful_emails st + 1 /\
   failures st' = failures st) /\
  (dry_run args = false -> usable v = false ->
   successful_emails st' = successful_emails st /\
   failures st' = failures st + 1) /\
  (forall c : string,
     dry_run args = false ->
     endpoint (served w) (request_of getenv args r) = Content c ->
     prefix error_marker (strip c) = true ->
     v = Some (strip c) /\ usable v = false).
Proof.
  intros v st' failures Hn. subst v st' failures.
  split; [|split; [apply usable_spec|]].
  - by_row getenv endpoint args r st w Hn' Hd v w1 Hg Hu;
      try discriminate; reflexivity.
  - destruct (dry_run args) eqn:Hd.
    + rewrite (iteration_dry getenv endpoint args r st w Hn Hd).
      rewrite usable_placeholder. cbn [fst output_data successful_emails total_contacts].
      split; [reflexivity|]. split; [reflexivity|].
      split; [discriminate|]. split; discriminate.
    + rewrite (iteration_live getenv endpoint args r st w Hn Hd).
      assert (Hc : forall c : string,
                 endpoint (served w) (request_of getenv args r) = Content c ->
                 prefix error_marker (strip c) = true ->
                 fst (generate_for getenv endpoint args r w) = Some (strip c) /\
                 usable (fst (generate_for getenv endpoint args r w)) = false).
      { intros c Hc Hp. unfold generate_for.
        rewrite (generate_email_named getenv endpoint _ _ _ _ _ _ Hn).
        fold (request_of getenv args r).
        rewrite (attempts_first_success endpoint _ w c Hc). cbn [fst].
        split; trivial. simpl. rewrite Hp, andb_false_r. reflexivity. }
      destruct (generate_for getenv endpoint args r w) as [v w1]. cbn [fst] in *.
      destruct (usable v) eqn:Hu;
        cbn [fst output_data successful_emails total_contacts];
        (split; [lia|]); (split; [reflexivity|]);
        (split; [intros _ H; try discriminate H; split; lia|]);
        (split; [intros _ H; try discriminate H; split; lia|]);
        intros c _ Hc' Hp; exact (Hc c Hc' Hp).
Qed.

(** The contacts of the summary, counted on the data frame. *)
Lemma main_total
    (getenv : string -> option string) (endpoint : nat -> request -> outcome)
    (args : Args) (df : list row) (w : World) :
  total_processed (snd (fst (main getenv endpoint args df w))) =
    Z.of_nat (List.length (filter named (considered (limit args) df))).
Proof.
  rewrite main_considered.
  pose proof (iterrows_total getenv endpoint args (considered (limit args) df)
                {| output_data := []; total_contacts := 0; successful_emails := 0 |} w) as H.
  destruct (iterrows _ _ _ _ _ _) as [st w']. cbn [fst snd total_processed] in *.
  rewrite H. reflexivity.
Qed.

(** C5. The number of contacts in the summary is the number of rows with a
    non-empty contact name among the rows that the limit, when it is set,
    leaves. *)
Theorem total_contacts_counts_named_rows
    (getenv : string -> option string) (endpoint : nat -> request -> outcome)
    (args : Args) (df : list row) (w : World) :
  total_processed (snd (fst (main getenv endpoint args df w))) =
    Z.of_nat (List.length (filter named (considered (limit args) df))).
Proof. apply main_total. Qed.


(** The run is the run on the contacts among the considered rows. *)
Lemma main_filter
    (getenv : string -> option string) (endpoint : nat -> request -> outcome)
    (args : Args) (df : list row) (w : World) :
  main getenv endpoint args df w =
    main getenv endpoint (unlimited args) (filter named (considered (limit args) df)) w.
Proof.
  rewrite !main_considered. cbn [limit unlimited]. rewrite considered_unlimited.
  rewrite iterrows_unlimited, <- iterrows_filter. reflexivity.
Qed.

(** Every entry that is written out has a contact name and a usable text. *)
Lemma main_kept
    (getenv : string -> option string) (endpoint : nat -> request -> outcome)
    (args : Args) (df : list row) (w : World) :
  Forall kept (fst (fst (main getenv endpoint args df w))).
Proof.
  rewrite main_considered.
  pose proof (iterrows_kept getenv endpoint args (considered (limit args) df)
                {| output_data := []; total_contacts := 0; successful_emails := 0 |} w
                (Forall_nil _)) as H.
  destruct (iterrows _ _ _ _ _ _) as [st w']. exact H.
Qed.

(** The summary of a live run: as many successes as entries and as waits of
    one half second, and a failed count that is not negative. *)
Lemma main_live
    (getenv : string -> option string) (endpoint : nat -> request -> outcome)
    (args : Args) (df : list row) :
  dry_run args = false ->
  let run := main getenv endpoint args df boot in
  let s := snd (fst run) in
  successful_generated s = Z.of_nat (List.length (fst (fst run))) /\
  successful_generated s = fixed_waits (log (snd run)) /\
  0 <= failed s <= total_processed s.
Proof.
  intros Hd. cbv zeta. rewrite main_considered.
  pose proof (iterrows_live getenv endpoint args (considered (limit args) df)
                {| output_data := []; total_contacts := 0; successful_emails := 0 |} boot
                Hd) as H.
  cbv zeta in H. destruct (iterrows _ _ _ _ _ _) as [st w'].
  cbn [fst snd output_data total_contacts successful_emails
       total_processed successful_generated failed boot log List.length] in *.
  change (fixed_waits []) with 0 in H. lia.
Qed.

(** C7. A considered row whose contact name is empty or missing leaves no
    trace: the run is the run on the rows around it, every entry that is
    written out carries a non-empty contact name, and the contacts of the
    summary are those of the rows around it. *)
Theorem nameless_row_left_out
    (getenv : string -> option string) (endpoint : nat -> request -> outcome)
    (args : Args) (df l1 l2 : list row) (r : row) (w : World) :
  considered (limit args) df = (l1 ++ r :: l2)%list ->
  named r = false ->
  let run := main getenv endpoint args df w in
  run = main getenv endpoint (unlimited args) (l1 ++ l2) w /\
  Forall (fun e => nonempty_name (Contact_Name e) = true) (fst (fst run)) /\
  total_processed (snd (fst run)) = Z.of_nat (List.length (filter named (l1 ++ l2))).
Proof.
  intros Hc Hn run.
  assert (Hrun : run = main getenv endpoint (unlimited args) (l1 ++ l2) w).
  { subst run.
    rewrite (main_filter _ _ args df), (main_filter _ _ (unlimited args) (l1 ++ l2)).
    cbn [limit unlimited]. rewrite considered_unlimited, Hc.
    rewrite !filter_app. cbn [filter]. rewrite Hn. reflexivity. }
  split; [exact Hrun|split].
  - eapply Forall_impl; [|apply main_kept]. intros e [H _]. exact H.
  - rewrite Hrun, main_total. reflexivity.
Qed.

(** C8. With a row limit N > 0 the run is the run without a limit on the
    first N rows, nameless rows included; two data frames with the same
    first N rows give the same run, and the contacts are counted among those
    N rows only. *)
Theorem limit_keeps_first_rows
    (getenv : string -> option string) (endpoint : nat -> request -> outcome)
    (args : Args) (df df' : list row) (w : World) :
  0 < limit args ->
  firstn (Z.to_nat (limit args)) df' = firstn (Z.to_nat (limit args)) df ->
  let run := main getenv endpoint args df w in
  run = main getenv endpoint (unlimited args) (firstn (Z.to_nat (limit args)) df) w /\
  main getenv endpoint args df' w = run /\
  total_processed (snd (fst run)) =
    Z.of_nat (List.length (filter named (firstn (Z.to_nat (limit args)) df))).
Proof.
  intros Hl Hf run. subst run. repeat split.
  - rewrite !main_considered. cbn [limit unlimited].
    rewrite considered_unlimited, (considered_limit _ _ Hl), iterrows_unlimited.
    reflexivity.
  - rewrite !main_considered, !(considered_limit _ _ Hl), Hf. reflexivity.
  - rewrite main_total, (considered_limit _ _ Hl). reflexivity.
Qed.



(** C10. Without a contact name [generate_email] returns [None], which is
    no string, sends no request and does not wait; the test of [main] on
    [None] fails. *)
Theorem generate_email_without_name
    (getenv : string -> option string) (endpoint : nat -> request -> outcome)
    (company_name industry_focus contact_name position notes : cell)
    (model : string) (w : World) :
  nonempty_name contact_name = false ->
  generate_email getenv endpoint company_name industry_focus contact_name
    position notes model w = (None, w) /\
  (forall s : string, @None string <> Some s) /\
  usable None = false.
Proof.
  intros Hn. unfold generate_email. rewrite skipped_nonempty_name, Hn.
  repeat split. discriminate.
Qed.

(** ** The theorems at work on the example inputs *)

Lemma generate_email_retries_twice_witness :
  let r := generate_for no_environment fails_twice live alice boot in
  nonempty_name (contact_of alice) = true /\
  fst r = Some "Subject: AI-Powered Deal Due Diligence Platform" /\
  served (snd r) = 3%nat /\
  sleeps (log (snd r)) = [5%Q; 10%Q].
Proof.
  intros r.
  destruct (generate_email_retries_twice no_environment fails_twice
              (get alice "Company Name" (Str "")) (get alice "Industry Focus" (Str ""))
              (contact_of alice) (get alice "Position / Role" (Str ""))
              (get alice "Notes" (Str "")) (model live) boot
              "Rate limit reached" "Rate limit reached"
              " Subject: AI-Powered Deal Due Diligence Platform "
              eq_refl eq_refl eq_refl eq_refl) as (H1 & H2 & _ & _ & H3).
  split; [reflexivity|]. split; [exact H1|]. split; [exact H2 | exact H3].
Defined.

Lemma retry_exhaustion_witness :
  let req := request_of no_environment live alice in
  let w' := {| served := 3; log := three_attempts req |} in
  named alice = true /\
  dry_run live = false /\
  always_fails 2%nat req = Raised "Connection error." /\
  generate_for no_environment always_fails live alice boot =
    (Some "Error generating email: Connection error.", w') /\
  iterrows no_environment always_fails live [alice; bob] start boot =
    iterrows no_environment always_fails live [bob]
      {| output_data := []; total_contacts := 1; successful_emails := 0 |} w'.
Proof.
  intros req w'.
  destruct (retry_exhaustion no_environment always_fails live alice [bob] start boot
              "Connection error." "Connection error." "Connection error."
              eq_refl eq_refl eq_refl eq_refl eq_refl) as (H1 & _ & H2).
  split; [reflexivity|]. split; [reflexivity|]. split; [reflexivity|].
  split; [exact H1 | exact H2].
Defined.

Lemma counted_iff_usable_witness :
  let st' := fst (iteration no_environment answers_like_marker live alice start boot) in
  named alice = true /\
  output_data st' = [] /\
  successful_emails st' = 0 /\
  total_contacts st' = 1.
Proof.
  intros st'.
  destruct (counted_iff_usable no_environment answers_like_marker live alice start boot
              eq_refl) as (Ht & _ & _ & Ho & _ & Hf & Hm).
  destruct (Hm "Error generating email reports is costly for any lender."
              eq_refl eq_refl eq_refl) as [_ Hu].
  destruct (Hf eq_refl Hu) as (Hs & _).
  split; [reflexivity|]. split; [exact Ho|]. split; [exact Hs | exact Ht].
Defined.

Lemma nameless_row_left_out_witness :
  let run := main no_environment fails_twice live [alice; nameless; bob] boot in
  named nameless = false /\
  run = main no_environment fails_twice live [alice; bob] boot /\
  total_processed (snd (fst run)) = 2.
Proof.
  intros run.
  destruct (nameless_row_left_out no_environment fails_twice live
              [alice; nameless; bob] [alice] [bob] nameless boot eq_refl eq_refl)
    as (H1 & _ & H2).
  split; [reflexivity|]. split; [exact H1 | exact H2].
Defined.

Lemma limit_keeps_first_rows_witness :
  let run := main no_environment fails_twice (live_first 2) [nameless; alice; bob] boot in
  0 < limit (live_first 2) /\
  run = main no_environment fails_twice live [nameless; alice] boot /\
  main no_environment fails_twice (live_first 2) [nameless; alice; alice; alice] boot = run /\
  total_processed (snd (fst run)) = 1.
Proof.
  intros run.
  destruct (limit_keeps_first_rows no_environment fails_twice (live_first 2)
              [nameless; alice; bob] [nameless; alice; alice; alice] boot
              eq_refl eq_refl) as (H1 & H2 & H3).
  split; [reflexivity|]. split; [exact H1|]. split; [exact H2 | exact H3].
Defined.


Lemma generate_email_without_name_witness :
  nonempty_name (contact_of nameless) = false /\
  generate_for no_environment always_fails live nameless boot = (None, boot) /\
  usable None = false.
Proof.
  destruct (generate_email_without_name no_environment always_fails
              (get nameless "Company Name" (Str "")) (get nameless "Industry Focus" (Str ""))
              (contact_of nameless) (get nameless "Position / Role" (Str ""))
              (get nameless "Notes" (Str "")) (model live) boot eq_refl) as (H1 & _ & H2).
  split; [reflexivity|]. split; [exact H1 | exact H2].
Defined.

(** * Further properties of the script *)

(** ** [str.strip] *)

Lemma last_char_some (a : ascii) (s : string) :
  exists b, last_char (String a s) = Some b.
Proof.
  revert a. induction s as [|b s IH]; intros a; [now exists a|].
  destruct (IH b) as [c Hc]. exists c. exact Hc.
Qed.

Lemma last_char_cons (a : ascii) (s : string) :
  last_char (String a s) =
    match last_char s with
    | Some b => Some b
    | None => Some a
    end.
Proof.
  destruct s as [|b s]; [reflexivity|].
  change (last_char (String a (String b s))) with (last_char (String b s)).
  destruct (last_char_some b s) as [c ->]. reflexivity.
Qed.

Lemma last_char_reverse (acc s : string) :
  last_char (reverse acc s) =
    match last_char acc with
    | Some b => Some b
    | None => first_char s
    end.
Proof.
  revert acc. induction s as [|a s IH]; intros acc.
  - simpl. destruct (last_char acc); reflexivity.
  - cbn [reverse]. rewrite IH, last_char_cons.
    destruct (last_char acc); reflexivity.
Qed.

Lemma first_char_reverse (acc s : string) :
  first_char (reverse acc s) =
    match last_char s with
    | Some b => Some b
    | None => first_char acc
    end.
Proof.
  revert acc. induction s as [|a s IH]; intros acc.
  - reflexivity.
  - cbn [reverse]. rewrite IH, last_char_cons.
    destruct (last_char s); reflexivity.
Qed.

Lemma lstrip_first (s : string) (a : ascii) :
  first_char (lstrip s) = Some a -> isspace a = false.
Proof.
  induction s as [|b s IH]; simpl; [discriminate|].
  destruct (isspace b) eqn:Hb; [exact IH|].
  simpl. intros H. injection H as <-. exact Hb.
Qed.

Lemma lstrip_last (s : string) (a : ascii) :
  last_char s = Some a -> isspace a = false -> last_char (lstrip s) = Some a.
Proof.
  intros Hl Ha. induction s as [|b s IH]; [discriminate|].
  cbn [lstrip]. destruct (isspace b) eqn:Hb; [|exact Hl].
  apply IH. rewrite last_char_cons in Hl.
  destruct (last_char s); [exact Hl|]. injection Hl as ->. congruence.
Qed.

Lemma lstrip_blank (s : string) : blank s = true -> lstrip s = "".
Proof.
  induction s as [|a s IH]; simpl; [reflexivity|].
  intros H. apply andb_true_iff in H. destruct H as [Ha Hs].
  rewrite Ha. exact (IH Hs).
Qed.

Lemma strip_blank (s : string) : blank s = true -> strip s = "".
Proof. intros H. unfold strip. rewrite (lstrip_blank s H). reflexivity. Qed.

(** [strip] gives a string without whitespace at either end. *)
Lemma strip_trimmed (s : string) : trimmed (strip s) = true.
Proof.
  unfold strip, rstrip, trimmed.
  rewrite first_char_reverse, last_char_reverse. cbn [last_char first_char].
  destruct (lstrip s) as [|a t] eqn:Ht; [reflexivity|].
  assert (Ha : isspace a = false) by (apply (lstrip_first s); now rewrite Ht).
  assert (Hl : last_char (reverse "" (String a t)) = Some a)
    by (rewrite last_char_reverse; reflexivity).
  rewrite (lstrip_last _ a Hl Ha), Ha.
  destruct (first_char (lstrip (reverse "" (String a t)))) as [c|] eqn:Hc;
    [|reflexivity].
  now rewrite (lstrip_first _ c Hc).
Qed.

(** ** The retry loop, whatever the endpoint does *)

Lemma calls_retry_log (req : request) (d : Z) (k : nat) :
  calls (retry_log req d k) = S k.
Proof.
  revert d. induction k as [|k IH]; intros d; [reflexivity|].
  cbn [retry_log]. change (calls (Call req :: Sleep (inject_Z d) :: ?l)) with (S (calls l)).
  now rewrite IH.
Qed.

Lemma sleeps_retry_log (req : request) (k : nat) :
  (k <= 2)%nat -> sleeps (retry_log req 5 k) = firstn k [5%Q; 10%Q].
Proof.
  intros H. destruct k as [|[|[|k]]]; try reflexivity. lia.
Qed.

Lemma fixed_waits_retry_log (req : request) (k : nat) :
  (k <= 2)%nat -> fixed_waits (retry_log req 5 k) = 0.
Proof.
  intros H. destruct k as [|[|[|k]]]; try reflexivity. lia.
Qed.

(** The retry loop stops after the attempt numbered [k], at most the third:
    the attempts before it failed, and it either answered or was the third
    to fail. *)
Lemma attempts_outcome
    (endpoint : nat -> request -> outcome) (req : request) (w : World) :
  exists (k : nat) (s : string),
    (k <= 2)%nat /\
    attempts endpoint req 3 (range 3) 5 w =
      (Some s, {| served := S k + served w; log := log w ++ retry_log req 5 k |}) /\
    (forall i, (i < k)%nat -> exists e, endpoint (i + served w)%nat req = Raised e) /\
    ((exists c, endpoint (k + served w)%nat req = Content c /\ s = strip c) \/
     (k = 2%nat /\
      exists e, endpoint (2 + served w)%nat req = Raised e /\
                s = "Error generating email: " ++ e)).
Proof.
  rewrite range_3. simpl. unfold bind, create, sleep, ret; simpl.
  destruct (endpoint (served w) req) as [c0|e0] eqn:H0; simpl.
  { exists 0%nat, (strip c0). repeat split; try lia.
    left. exists c0. now split. }
  destruct (endpoint (S (served w)) req) as [c1|e1] eqn:H1; simpl.
  { exists 1%nat, (strip c1). split; [lia|]. split; [|split].
    - rewrite <- !app_assoc. reflexivity.
    - intros i Hi. assert (i = 0%nat) as -> by lia. now exists e0.
    - left. exists c1. now split. }
  destruct (endpoint (S (S (served w))) req) as [c2|e2] eqn:H2; simpl.
  { exists 2%nat, (strip c2). split; [lia|]. split; [|split].
    - rewrite <- !app_assoc. reflexivity.
    - intros i Hi. destruct i as [|[|i]]; [now exists e0 | now exists e1 | lia].
    - left. exists c2. now split. }
  exists 2%nat, ("Error generating email: " ++ e2). split; [lia|]. split; [|split].
  - rewrite <- !app_assoc. reflexivity.
  - intros i Hi. destruct i as [|[|i]]; [now exists e0 | now exists e1 | lia].
  - right. split; [reflexivity|]. exists e2. now split.
Qed.

(** X1. With a contact name, [generate_email] stops at the first attempt
    that is answered: when the attempts before the one numbered [k] fail
    and that one answers, it has sent [k + 1] requests, has waited 5 and
    then 10 seconds as far as [k] goes, and returns the stripped answer. *)
Theorem generate_email_stops_at_first_answer
    (getenv : string -> option string) (endpoint : nat -> request -> outcome)
    (company_name industry_focus contact_name position notes : cell)
    (model : string) (w : World) (k : nat) (c : string) :
  let req :=
    chat_request model
      (prompt getenv company_name industry_focus contact_name position notes) in
  let r :=
    generate_email getenv endpoint company_name industry_focus contact_name
      position notes model w in
  nonempty_name contact_name = true ->
  (k <= 2)%nat ->
  (forall i, (i < k)%nat -> exists e, endpoint (i + served w)%nat req = Raised e) ->
  endpoint (k + served w)%nat req = Content c ->
  r = (Some (strip c),
       {| served := S k + served w; log := log w ++ retry_log req 5 k |}) /\
  calls (log (snd r)) = (calls (log w) + S k)%nat /\
  sleeps (log (snd r)) = (sleeps (log w) ++ firstn k [5%Q; 10%Q])%list.
Proof.
  intros req r Hn Hk Hf Hc. subst r.
  rewrite (generate_email_named getenv endpoint _ _ _ _ _ _ Hn). fold req.
  destruct (attempts_outcome endpoint req w) as (j & s & Hj & Hrun & Hbefore & Hend).
  assert (j = k) as ->.
  { destruct (Nat.lt_trichotomy j k) as [Hlt|[Heq|Hgt]]; [|exact Heq|].
    - destruct (Hf j Hlt) as [e He].
      destruct Hend as [(c' & Hc' & _)|(-> & _)]; [congruence | lia].
    - destruct (Hbefore k Hgt) as [e He]. congruence. }
  assert (s = strip c) as ->.
  { destruct Hend as [(c' & Hc' & ->)|(-> & e & He & _)]; congruence. }
  rewrite Hrun. cbn [snd log]. rewrite calls_app, sleeps_app.
  rewrite calls_retry_log, (sleeps_retry_log req k Hk). repeat split.
Qed.

(** ** The effect of the loop *)

Lemma subseq_refl {A : Type} (l : list A) : subseq l l.
Proof. induction l; constructor; assumption. Qed.

Lemma subseq_app {A : Type} (l1 l2 m1 m2 : list A) :
  subseq l1 l2 -> subseq m1 m2 -> subseq (l1 ++ m1) (l2 ++ m2).
Proof.
  intros H1 H2. induction H1; simpl; trivial; constructor; assumption.
Qed.

Lemma subseq_length {A : Type} (l1 l2 : list A) :
  subseq l1 l2 -> (List.length l1 <= List.length l2)%nat.
Proof. induction 1; simpl; lia. Qed.

Lemma expected_event_incl
    (getenv : string -> option string) (args : Args) (rows rows' : list row)
    (e : event) :
  incl rows rows' ->
  expected_event getenv args rows e -> expected_event getenv args rows' e.
Proof.
  intros Hi. destruct e as [req|d]; simpl; trivial.
  intros (r & Hr & Hn & Hq). exists r. auto.
Qed.

Lemma expected_retry_log
    (getenv : string -> option string) (args : Args) (r : row) (k : nat) :
  named r = true -> (k <= 2)%nat ->
  Forall (expected_event getenv args [r]) (retry_log (request_of getenv args r) 5 k).
Proof.
  intros Hn Hk.
  assert (Hc : expected_event getenv args [r] (Call (request_of getenv args r)))
    by (exists r; simpl; auto).
  destruct k as [|[|[|k]]]; [| | |lia]; cbn [retry_log];
    repeat (constructor; [first [exact Hc | simpl; auto]|]); constructor.
Qed.

Lemma apply_no_effect (st : State) (w : World) : apply_effect no_effect st w = (st, w).
Proof.
  destruct st, w. unfold apply_effect. simpl.
  rewrite !app_nil_r, !Z.add_0_r. reflexivity.
Qed.

Lemma apply_then_effect (x y : effect) (st : State) (w : World) :
  apply_effect y (fst (apply_effect x st w)) (snd (apply_effect x st w)) =
    apply_effect (then_effect x y) st w.
Proof.
  unfold apply_effect, then_effect. simpl.
  rewrite <- !app_assoc, <- !Z.add_assoc.
  replace (new_served y + (new_served x + served w))%nat
    with (new_served x + new_served y + served w)%nat by lia.
  reflexivity.
Qed.

Lemma sound_no_effect (getenv : string -> option string) (args : Args) :
  sound_effect getenv args [] no_effect.
Proof.
  unfold sound_effect. simpl. repeat split; try constructor; try lia.
Qed.

Lemma sound_then_effect
    (getenv : string -> option string) (args : Args) (df1 df2 : list row)
    (x y : effect) :
  sound_effect getenv args df1 x -> sound_effect getenv args df2 y ->
  sound_effect getenv args (df1 ++ df2) (then_effect x y).
Proof.
  intros (X1 & X2 & X3 & X4 & X5 & X6 & X7) (Y1 & Y2 & Y3 & Y4 & Y5 & Y6 & Y7).
  unfold sound_effect. cbn [then_effect new_entries new_events new_contacts
                             new_successes new_served].
  rewrite filter_app, !map_app, !length_app, calls_app, fixed_waits_app.
  split; [lia|]. split; [now apply subseq_app|]. split; [now apply Forall_app|].
  split.
  { apply Forall_app. split; (eapply Forall_impl; [|eassumption]); intros e;
      apply expected_event_incl; [apply incl_appl | apply incl_appr]; apply incl_refl. }
  split; [lia|]. split.
  - intros Hd. destruct (X6 Hd) as (-> & ? & ?), (Y6 Hd) as (-> & ? & ?).
    split; [reflexivity|]. lia.
  - intros Hd.
    destruct (X7 Hd) as (? & ? & ? & ? & ?), (Y7 Hd) as (? & ? & ? & ? & ?).
    repeat split; try lia. now apply Forall_app.
Qed.

(** The call of [generate_email] for a contact, whatever the endpoint does. *)
Lemma generate_for_outcome
    (getenv : string -> option string) (endpoint : nat -> request -> outcome)
    (args : Args) (r : row) (w : World) :
  named r = true ->
  exists (k : nat) (s : string),
    (k <= 2)%nat /\
    generate_for getenv endpoint args r w =
      (Some s, {| served := S k + served w;
                  log := log w ++ retry_log (request_of getenv args r) 5 k |}) /\
    (usable (Some s) = true -> trimmed s = true).
Proof.
  intros Hn. unfold generate_for.
  rewrite (generate_email_named getenv endpoint _ _ _ _ _ _ Hn).
  fold (request_of getenv args r).
  destruct (attempts_outcome endpoint (request_of getenv args r) w)
    as (k & s & Hk & Hrun & _ & Hend).
  exists k, s. split; [exact Hk|]. split; [exact Hrun|].
  destruct Hend as [(c & _ & ->)|(_ & e & _ & ->)].
  - intros _. apply strip_trimmed.
  - rewrite usable_marker. discriminate.
Qed.

(** The effect of the body of the loop on one row. *)
Lemma iteration_effect
    (getenv : string -> option string) (endpoint : nat -> request -> outcome)
    (args : Args) (r : row) (st : State) (w : World) :
  exists x, iteration getenv endpoint args r st w = apply_effect x st w /\
            sound_effect getenv args [r] x.
Proof.
  destruct (named r) eqn:Hn; [destruct (dry_run args) eqn:Hd|].
  - exists {| new_entries := [entry_of r (placeholder r)]; new_events := [];
              new_contacts := 1; new_successes := 2; new_served := 0 |}.
    split.
    + rewrite (iteration_dry getenv endpoint args r st w Hn Hd).
      destruct w. unfold apply_effect. simpl. rewrite app_nil_r.
      do 2 f_equal. lia.
    + unfold sound_effect. cbn [filter]. rewrite Hn.
      cbn [new_entries new_events new_contacts new_successes new_served map List.length].
      split; [reflexivity|]. split; [apply subseq_refl|].
      split; [constructor; [split; [exact Hn | apply usable_placeholder] | constructor]|].
      split; [constructor|]. split; [reflexivity|].
      split; [intros _; repeat split | congruence].
  - destruct (generate_for_outcome getenv endpoint args r w Hn) as (k & s & Hk & Hg & Ht).
    rewrite (iteration_live getenv endpoint args r st w Hn Hd), Hg.
    pose proof (expected_retry_log getenv args r k Hn Hk) as He.
    destruct (usable (Some s)) eqn:Hu.
    + exists {| new_entries := [entry_of r (Some s)];
                new_events := retry_log (request_of getenv args r) 5 k ++ [Sleep (1 # 2)];
                new_contacts := 1; new_successes := 1; new_served := S k |}.
      split.
      * unfold apply_effect. simpl. rewrite <- app_assoc. reflexivity.
      * unfold sound_effect. cbn [filter]. rewrite Hn.
        cbn [new_entries new_events new_contacts new_successes new_served map List.length].
        rewrite calls_app, fixed_waits_app, calls_retry_log, (fixed_waits_retry_log _ k Hk).
        split; [reflexivity|]. split; [apply subseq_refl|].
        split; [constructor; [split; [exact Hn | exact Hu] | constructor]|].
        split; [apply Forall_app; split;
                  [exact He | constructor; [simpl; auto | constructor]]|].
        split; [change (calls [Sleep (1 # 2)]) with 0%nat; lia|].
        split; [congruence|]. intros _.
        split; [lia|]. split; [reflexivity|]. split; [reflexivity|]. split; [lia|].
        repeat constructor. exists s. auto.
    + exists {| new_entries := [];
                new_events := retry_log (request_of getenv args r) 5 k;
                new_contacts := 1; new_successes := 0; new_served := S k |}.
      split.
      * unfold apply_effect. simpl. rewrite app_nil_r, Z.add_0_r. reflexivity.
      * unfold sound_effect. cbn [filter]. rewrite Hn.
        cbn [new_entries new_events new_contacts new_successes new_served map List.length].
        rewrite calls_retry_log, (fixed_waits_retry_log _ k Hk).
        split; [reflexivity|]. split; [repeat constructor|].
        split; [constructor|]. split; [exact He|].
        split; [reflexivity|]. split; [congruence|]. intros _.
        split; [lia|]. split; [reflexivity|]. split; [reflexivity|]. split; [lia|].
        constructor.
  - exists no_effect. split.
    + rewrite (iteration_skipped getenv endpoint args r st w Hn).
      symmetry. apply apply_no_effect.
    + unfold sound_effect. cbn [filter]. rewrite Hn. simpl.
      repeat split; try constructor; try lia.
Qed.

(** The effect of the loop on a data frame. *)
Lemma iterrows_effect
    (getenv : string -> option string) (endpoint : nat -> request -> outcome)
    (args : Args) (df : list row) (st : State) (w : World) :
  exists x, iterrows getenv endpoint args df st w = apply_effect x st w /\
            sound_effect getenv args df x.
Proof.
  revert st w. induction df as [|r df IH]; intros st w.
  - exists no_effect. split; [symmetry; apply apply_no_effect | apply sound_no_effect].
  - rewrite iterrows_cons.
    destruct (iteration_effect getenv endpoint args r st w) as (x & Hx & Sx).
    rewrite Hx.
    destruct (IH (fst (apply_effect x st w)) (snd (apply_effect x st w)))
      as (y & Hy & Sy).
    exists (then_effect x y). split.
    + rewrite Hy. apply apply_then_effect.
    + exact (sound_then_effect getenv args [r] df x y Sx Sy).
Qed.

(** The effect of a run. *)
Lemma main_effect
    (getenv : string -> option string) (endpoint : nat -> request -> outcome)
    (args : Args) (df : list row) (w : World) :
  exists x,
    sound_effect getenv args (considered (limit args) df) x /\
    main getenv endpoint args df w =
      (new_entries x,
       {| total_processed := new_contacts x;
          successful_generated := new_successes x;
          failed := new_contacts x - new_successes x |},
       {| served := new_served x + served w; log := log w ++ new_events x |}).
Proof.
  destruct (iterrows_effect getenv endpoint args (considered (limit args) df)
              {| output_data := []; total_contacts := 0; successful_emails := 0 |} w)
    as (x & Hx & Sx).
  exists x. split; [exact Sx|].
  rewrite main_considered, Hx. reflexivity.
Qed.

(** ** [generate_email] *)

(** X2. With a contact name, whatever the endpoint does, [generate_email]
    returns a string after one, two or three requests; the waits between
    them are 5 and then 10 seconds, and the string is either free of
    whitespace at both ends or starts with the error marker. *)
Theorem generate_email_sends_at_most_three_requests
    (getenv : string -> option string) (endpoint : nat -> request -> outcome)
    (company_name industry_focus contact_name position notes : cell)
    (model : string) (w : World) :
  let r :=
    generate_email getenv endpoint company_name industry_focus contact_name
      position notes model w in
  nonempty_name contact_name = true ->
  exists (k : nat) (s : string),
    (k <= 2)%nat /\
    fst r = Some s /\
    served (snd r) = (S k + served w)%nat /\
    calls (log (snd r)) = (calls (log w) + S k)%nat /\
    sleeps (log (snd r)) = (sleeps (log w) ++ firstn k [5%Q; 10%Q])%list /\
    (trimmed s = true \/ prefix error_marker s = true).
Proof.
  intros r Hn. subst r.
  rewrite (generate_email_named getenv endpoint _ _ _ _ _ _ Hn).
  destruct (attempts_outcome endpoint
              (chat_request model
                 (prompt getenv company_name industry_focus contact_name position notes)) w)
    as (k & s & Hk & Hrun & _ & Hend).
  exists k, s. rewrite Hrun. cbn [fst snd served log].
  rewrite calls_app, sleeps_app, calls_retry_log, (sleeps_retry_log _ k Hk).
  repeat split; trivial.
  destruct Hend as [(c & _ & ->)|(_ & e & _ & ->)].
  - left. apply strip_trimmed.
  - right. reflexivity.
Qed.

(** X3. An answer of whitespace only is no email: [generate_email] returns
    the empty string after its one request, and [main] counts the contact
    as failed, keeps no entry and does not wait. *)
Theorem blank_answer_counts_as_failure
    (getenv : string -> option string) (endpoint : nat -> request -> outcome)
    (args : Args) (r : row) (st : State) (w : World) (c : string) :
  let w' := {| served := S (served w);
               log := log w ++ [Call (request_of getenv args r)] |} in
  named r = true ->
  dry_run args = false ->
  endpoint (served w) (request_of getenv args r) = Content c ->
  blank c = true ->
  generate_for getenv endpoint args r w = (Some "", w') /\
  iteration getenv endpoint args r st w =
    ({| output_data := output_data st;
        total_contacts := total_contacts st + 1;
        successful_emails := successful_emails st |}, w').
Proof.
  intros w' Hn Hd Hc Hb.
  assert (Hg : generate_for getenv endpoint args r w = (Some "", w')).
  { unfold generate_for. rewrite (generate_email_named getenv endpoint _ _ _ _ _ _ Hn).
    fold (request_of getenv args r).
    rewrite (attempts_first_success endpoint _ w c Hc), (strip_blank c Hb).
    reflexivity. }
  split; [exact Hg|].
  rewrite (iteration_live getenv endpoint args r st w Hn Hd), Hg. reflexivity.
Qed.

(** X4. In a live run every email that is handed over for writing is a
    non-empty text that does not start with the error marker and has no
    whitespace at either end. *)
Theorem live_emails_are_trimmed
    (getenv : string -> option string) (endpoint : nat -> request -> outcome)
    (args : Args) (df : list row) (w : World) :
  dry_run args = false ->
  Forall
    (fun e =>
       exists s, Email_Content e = Some s /\ s <> "" /\
                 prefix error_marker s = false /\ trimmed s = true)
    (fst (fst (main getenv endpoint args df w))).
Proof.
  intros Hd.
  destruct (main_effect getenv endpoint args df w) as (x & Sx & ->).
  destruct Sx as (_ & _ & Hk & _ & _ & _ & Hl).
  destruct (Hl Hd) as (_ & _ & _ & _ & Ht). cbn [fst].
  apply Forall_forall. intros e He.
  rewrite Forall_forall in Hk, Ht.
  destruct (Ht e He) as (s & Hs & Htrim). destruct (Hk e He) as [_ Hu].
  rewrite Hs in Hu. apply usable_spec in Hu.
  destruct Hu as (s' & Hs' & Hne & Hp). injection Hs' as <-.
  exists s. auto.
Qed.

(** ** Runs *)

Lemma considered_incl (n : Z) (df : list row) : incl (considered n df) df.
Proof.
  unfold considered. destruct (0 <? n)%Z; [|apply incl_refl].
  intros r Hr. rewrite <- (firstn_skipn (Z.to_nat n) df). apply in_or_app. now left.
Qed.

Lemma considered_length (n : Z) (df : list row) :
  0 < n -> Z.of_nat (List.length (considered n df)) <= n.
Proof.
  intros H. rewrite (considered_limit n df H).
  pose proof (firstn_le_length (Z.to_nat n) df). lia.
Qed.

Lemma get_missing (r : row) (label : string) (default : cell) :
  ~ In label (map fst r) -> get r label default = default.
Proof.
  induction r as [|[k v] r IH]; simpl; [reflexivity|].
  intros H. destruct (String.eqb_spec k label) as [->|_].
  - exfalso. apply H. now left.
  - apply IH. intros Hin. apply H. now right.
Qed.

Lemma iterrows_app
    (getenv : string -> option string) (endpoint : nat -> request -> outcome)
    (args : Args) (l1 l2 : list row) (st : State) (w : World) :
  iterrows getenv endpoint args (l1 ++ l2) st w =
    iterrows getenv endpoint args l2
      (fst (iterrows getenv endpoint args l1 st w))
      (snd (iterrows getenv endpoint args l1 st w)).
Proof.
  revert st w. induction l1 as [|r l1 IH]; intros st w.
  - reflexivity.
  - rewrite <- app_comm_cons, !iterrows_cons. apply IH.
Qed.

(** X5. A live run sends at least one and at most three requests for each
    contact, and the endpoint has served exactly the requests of the log. *)
Theorem live_run_request_bounds
    (getenv : string -> option string) (endpoint : nat -> request -> outcome)
    (args : Args) (df : list row) (w : World) :
  dry_run args = false ->
  let run := main getenv endpoint args df w in
  let total := total_processed (snd (fst run)) in
  exists n : nat,
    calls (log (snd run)) = (calls (log w) + n)%nat /\
    served (snd run) = (n + served w)%nat /\
    total <= Z.of_nat n <= 3 * total.
Proof.
  intros Hd run total. subst run total.
  destruct (main_effect getenv endpoint args df w) as (x & Sx & ->).
  destruct Sx as (_ & _ & _ & _ & Hs & _ & Hl).
  destruct (Hl Hd) as (Hb & _).
  exists (new_served x). cbn [fst snd served log total_processed].
  rewrite calls_app, <- Hs. repeat split; lia.
Qed.

(** X6. Whatever the endpoint does, a run adds to the log only requests
    for contacts among the considered rows, each with the model of the
    command line and the prompt of its row, and waits of 5, 10 or one half
    second. *)
Theorem run_logs_expected_events
    (getenv : string -> option string) (endpoint : nat -> request -> outcome)
    (args : Args) (df : list row) (w : World) :
  exists added : list event,
    log (snd (main getenv endpoint args df w)) = (log w ++ added)%list /\
    Forall (expected_event getenv args (considered (limit args) df)) added.
Proof.
  destruct (main_effect getenv endpoint args df w) as (x & Sx & ->).
  destruct Sx as (_ & _ & _ & He & _).
  exists (new_events x). split; [reflexivity | exact He].
Qed.

(** X7. The entries that are handed over for writing follow the order of
    the data frame: their company and contact names are those of the
    contacts among the considered rows, some of them left out, none
    repeated or moved. *)
Theorem output_follows_input_order
    (getenv : string -> option string) (endpoint : nat -> request -> outcome)
    (args : Args) (df : list row) (w : World) :
  subseq
    (map entry_key (fst (fst (main getenv endpoint args df w))))
    (map row_key (filter named (considered (limit args) df))).
Proof.
  destruct (main_effect getenv endpoint args df w) as (x & Sx & ->).
  destruct Sx as (_ & Hs & _). exact Hs.
Qed.

(** X8. A row limit N > 0 caps the run: at most N contacts, at most N
    entries, and at most 3 N requests. *)
Theorem limit_caps_the_run
    (getenv : string -> option string) (endpoint : nat -> request -> outcome)
    (args : Args) (df : list row) (w : World) :
  0 < limit args ->
  let run := main getenv endpoint args df w in
  total_processed (snd (fst run)) <= limit args /\
  Z.of_nat (List.length (fst (fst run))) <= limit args /\
  Z.of_nat (calls (log (snd run))) <= Z.of_nat (calls (log w)) + 3 * limit args.
Proof.
  intros Hl run. subst run.
  destruct (main_effect getenv endpoint args df w) as (x & Sx & ->).
  destruct Sx as (Hc & Hs & _ & _ & Hn & Hdry & Hlive).
  cbn [fst snd total_processed log]. rewrite calls_app, <- Hn.
  pose proof (considered_length (limit args) df Hl) as Hlen.
  pose proof (filter_length_le named (considered (limit args) df)) as Hf.
  pose proof (subseq_length _ _ Hs) as Hsub. rewrite !length_map in Hsub.
  assert (Z.of_nat (new_served x) <= 3 * new_contacts x).
  { destruct (dry_run args) eqn:Hd.
    - destruct (Hdry eq_refl) as (He & _). rewrite Hn, He.
      change (calls []) with 0%nat. lia.
    - destruct (Hlive eq_refl) as (? & _). lia. }
  lia.
Qed.

(** X9. A limit that is zero or negative, or no smaller than the data
    frame, changes nothing: the run is the run without a limit. *)
Theorem limit_out_of_range_is_no_limit
    (getenv : string -> option string) (endpoint : nat -> request -> outcome)
    (args : Args) (df : list row) (w : World) :
  limit args <= 0 \/ Z.of_nat (List.length df) <= limit args ->
  main getenv endpoint args df w = main getenv endpoint (unlimited args) df w.
Proof.
  intros H. rewrite !main_considered. cbn [limit unlimited].
  rewrite considered_unlimited, iterrows_unlimited.
  replace (considered (limit args) df) with df; [reflexivity|].
  unfold considered. destruct (Z.ltb_spec 0 (limit args)) as [Hpos|_]; [|reflexivity].
  symmetry. apply firstn_all2. lia.
Qed.

(** X10. When no row has a column with the label "Contact Name", which is
    compared letter by letter, nothing happens: no contact, no entry, no
    request and no wait. *)
Theorem missing_contact_column_gives_nothing
    (getenv : string -> option string) (endpoint : nat -> request -> outcome)
    (args : Args) (df : list row) (w : World) :
  Forall (fun r => ~ In "Contact Name" (map fst r)) df ->
  main getenv endpoint args df w =
    ([], {| total_processed := 0; successful_generated := 0; failed := 0 |}, w).
Proof.
  intros H. rewrite main_filter.
  replace (filter named (considered (limit args) df)) with (@nil row).
  - rewrite main_considered. cbn [limit unlimited]. reflexivity.
  - symmetry. apply (incl_Forall (considered_incl (limit args) df)) in H.
    induction H as [|r l Hr _ IH]; [reflexivity|].
    cbn [filter]. unfold named, contact_of. rewrite (get_missing r _ _ Hr). exact IH.
Qed.

(** X11. Without a limit, the rows that follow do not change what the run
    did before them: the entries and the log of the run over [df1] are the
    beginning of those of the run over [df1 ++ df2], and the contacts of
    both parts add up. *)
Theorem later_rows_only_add
    (getenv : string -> option string) (endpoint : nat -> request -> outcome)
    (args : Args) (df1 df2 : list row) (w : World) :
  limit args <= 0 ->
  let run1 := main getenv endpoint args df1 w in
  let run := main getenv endpoint args (df1 ++ df2) w in
  exists (out : list entry) (added : list event),
    fst (fst run) = (fst (fst run1) ++ out)%list /\
    log (snd run) = (log (snd run1) ++ added)%list /\
    total_processed (snd (fst run)) =
      total_processed (snd (fst run1)) + Z.of_nat (List.length (filter named df2)).
Proof.
  intros Hl run1 run. subst run1 run. rewrite !main_considered.
  assert (Hc : forall df, considered (limit args) df = df).
  { intros df. unfold considered.
    destruct (Z.ltb_spec 0 (limit args)); [lia | reflexivity]. }
  rewrite !Hc, iterrows_app.
  destruct (iterrows getenv endpoint args df1 _ w) as [st1 w1]. cbn [fst snd].
  destruct (iterrows_effect getenv endpoint args df2 st1 w1) as (y & -> & Sy).
  destruct Sy as (Hk & _).
  exists (new_entries y), (new_events y).
  cbn [fst snd output_data total_contacts log total_processed apply_effect].
  rewrite Hk. repeat split.
Qed.

(** ** The two ends of the endpoint's behaviour *)

Lemma iterrows_endpoint_down
    (getenv : string -> option string) (endpoint : nat -> request -> outcome)
    (args : Args) (df : list row) (st : State) (w : World) :
  dry_run args = false ->
  (forall n req, exists e, endpoint n req = Raised e) ->
  iterrows getenv endpoint args df st w =
    ({| output_data := output_data st;
        total_contacts := total_contacts st + Z.of_nat (List.length (filter named df));
        successful_emails := successful_emails st |},
     {| served := 3 * List.length (filter named df) + served w;
        log := log w ++
               flat_map (fun r => three_attempts (request_of getenv args r))
                 (filter named df) |}).
Proof.
  intros Hd Hdown. revert st w. induction df as [|r df IH]; intros st w.
  - destruct st, w. simpl. unfold ret. rewrite app_nil_r, Z.add_0_r. reflexivity.
  - rewrite iterrows_cons. cbn [filter]. destruct (named r) eqn:Hn.
    + rewrite (iteration_live getenv endpoint args r st w Hn Hd).
      destruct (Hdown (served w) (request_of getenv args r)) as [e1 H1].
      destruct (Hdown (S (served w)) (request_of getenv args r)) as [e2 H2].
      destruct (Hdown (S (S (served w))) (request_of getenv args r)) as [e3 H3].
      unfold generate_for.
      rewrite (generate_email_named getenv endpoint _ _ _ _ _ _ Hn).
      fold (request_of getenv args r).
      rewrite (attempts_exhausted endpoint _ w e1 e2 e3 H1 H2 H3), usable_marker.
      cbn [fst snd]. rewrite IH.
      cbn [output_data total_contacts successful_emails served log flat_map List.length].
      rewrite <- app_assoc. f_equal; f_equal; lia.
    + rewrite (iteration_skipped getenv endpoint args r st w Hn). apply IH.
Qed.

Lemma iterrows_endpoint_answers
    (getenv : string -> option string) (endpoint : nat -> request -> outcome)
    (args : Args) (df : list row) (st : State) (w : World) :
  dry_run args = false ->
  (forall n req, exists c, endpoint n req = Content c /\ usable (Some (strip c)) = true) ->
  exists out : list entry,
    map entry_key out = map row_key (filter named df) /\
    iterrows getenv endpoint args df st w =
      ({| output_data := output_data st ++ out;
          total_contacts := total_contacts st + Z.of_nat (List.length (filter named df));
          successful_emails :=
            successful_emails st + Z.of_nat (List.length (filter named df)) |},
       {| served := List.length (filter named df) + served w;
          log := log w ++
                 flat_map (fun r => [Call (request_of getenv args r); Sleep (1 # 2)])
                   (filter named df) |}).
Proof.
  intros Hd Hup. revert st w. induction df as [|r df IH]; intros st w.
  - exists []. split; [reflexivity|].
    destruct st, w. simpl. unfold ret. rewrite !app_nil_r, !Z.add_0_r. reflexivity.
  - rewrite iterrows_cons. cbn [filter]. destruct (named r) eqn:Hn.
    + rewrite (iteration_live getenv endpoint args r st w Hn Hd).
      destruct (Hup (served w) (request_of getenv args r)) as (c & Hc & Hu).
      unfold generate_for.
      rewrite (generate_email_named getenv endpoint _ _ _ _ _ _ Hn).
      fold (request_of getenv args r).
      rewrite (attempts_first_success endpoint _ w c Hc), Hu.
      cbn [fst snd].
      match goal with
      | |- context [iterrows getenv endpoint args df ?s ?x] =>
          destruct (IH s x) as (out & Hk & ->)
      end.
      exists (entry_of r (Some (strip c)) :: out). split.
      * cbn [map]. rewrite Hk. reflexivity.
      * cbn [output_data total_contacts successful_emails served log flat_map
             List.length app].
        rewrite <- !app_assoc. cbn [app]. f_equal; f_equal; lia.
    + rewrite (iteration_skipped getenv endpoint args r st w Hn). apply IH.
Qed.

(** X12. While the endpoint is down, a live run sends three requests for
    every contact with waits of 5 and 10 seconds between them, hands nothing
    over for writing and reports every contact as failed. *)
Theorem endpoint_down_run
    (getenv : string -> option string) (endpoint : nat -> request -> outcome)
    (args : Args) (df : list row) (w : World) :
  dry_run args = false ->
  (forall n req, exists e, endpoint n req = Raised e) ->
  let run := main getenv endpoint args df w in
  let rows := filter named (considered (limit args) df) in
  let k := Z.of_nat (List.length rows) in
  fst run = ([], {| total_processed := k; successful_generated := 0; failed := k |}) /\
  served (snd run) = (3 * List.length rows + served w)%nat /\
  log (snd run) =
    (log w ++ flat_map (fun r => three_attempts (request_of getenv args r)) rows)%list.
Proof.
  intros Hd Hdown run rows k. subst run rows k.
  rewrite main_considered, (iterrows_endpoint_down _ _ _ _ _ _ Hd Hdown).
  cbn [fst snd output_data total_contacts successful_emails served log].
  repeat split. do 2 f_equal. lia.
Qed.

(** X13. While the endpoint answers every request with a usable text, a
    live run sends one request for every contact, waits one half second
    after each, keeps an entry for every contact in the order of the rows
    and reports no failure. *)
Theorem endpoint_answers_run
    (getenv : string -> option string) (endpoint : nat -> request -> outcome)
    (args : Args) (df : list row) (w : World) :
  dry_run args = false ->
  (forall n req, exists c, endpoint n req = Content c /\ usable (Some (strip c)) = true) ->
  let run := main getenv endpoint args df w in
  let rows := filter named (considered (limit args) df) in
  let k := Z.of_nat (List.length rows) in
  map entry_key (fst (fst run)) = map row_key rows /\
  snd (fst run) = {| total_processed := k; successful_generated := k; failed := 0 |} /\
  served (snd run) = (List.length rows + served w)%nat /\
  log (snd run) =
    (log w ++
     flat_map (fun r => [Call (request_of getenv args r); Sleep (1 # 2)]) rows)%list.
Proof.
  intros Hd Hup run rows k. subst run rows k.
  rewrite main_considered.
  destruct (iterrows_endpoint_answers getenv endpoint args
              (considered (limit args) df)
              {| output_data := []; total_contacts := 0; successful_emails := 0 |} w
              Hd Hup) as (out & Hk & ->).
  cbn [fst snd output_data total_contacts successful_emails served log app].
  repeat split; trivial. f_equal. lia.
Qed.

(** ** The files *)

(** X14. A simulated run sends no request and does not wait, yet with at
    least one contact it calls [to_csv] with one placeholder entry for every
    contact.  When the file can be written it holds the placeholders and
    the summary follows, with twice as many successes as contacts; when
    [to_csv] raises, the run ends there without a summary; with no contact
    the file is not touched. *)
Theorem simulated_run_writes_placeholders
    (getenv : string -> option string) (endpoint : nat -> request -> outcome)
    (to_csv : list entry -> option string)
    (args : Args) (df : list row) (w : World) :
  dry_run args = true ->
  let rows := filter named (considered (limit args) df) in
  let entries := map (fun r => entry_of r (placeholder r)) rows in
  let k := Z.of_nat (List.length rows) in
  let s :=
    {| total_processed := k; successful_generated := 2 * k; failed := k - 2 * k |} in
  main_with_files getenv endpoint to_csv args (inr df) w =
    (match rows with
     | [] => Finished None s
     | _ :: _ =>
         match to_csv entries with
         | None => Finished (Some entries) s
         | Some e => Crashed e
         end
     end, w).
Proof.
  intros Hd rows entries k s. subst s k entries rows.
  unfold main_with_files, bind, ret.
  rewrite (main_dry getenv endpoint args df w Hd). cbn [fst snd].
  destruct (filter named (considered (limit args) df)) as [|r rows]; [reflexivity|].
  cbn [map]. destruct (to_csv _); reflexivity.
Qed.

(** X15. In a live run whose input was read, as many entries are kept as
    the summary counts successes, and the failed count lies between 0 and
    the contacts.  With no success the file is not touched and the run ends
    with the summary; with a success [to_csv] is called on the entries, and
    the run ends with the summary when the file is written and with the
    exception, without a summary, when [to_csv] raises. *)
Theorem live_file_matches_summary
    (getenv : string -> option string) (endpoint : nat -> request -> outcome)
    (to_csv : list entry -> option string)
    (args : Args) (df : list row) (w : World) :
  dry_run args = false ->
  let out := fst (fst (main getenv endpoint args df w)) in
  let s := snd (fst (main getenv endpoint args df w)) in
  0 <= failed s <= total_processed s /\
  Z.of_nat (List.length out) = successful_generated s /\
  fst (main_with_files getenv endpoint to_csv args (inr df) w) =
    (if (successful_generated s =? 0)%Z then Finished None s
     else
       match to_csv out with
       | None => Finished (Some out) s
       | Some e => Crashed e
       end).
Proof.
  intros Hd out s. subst out s. unfold main_with_files, bind, ret.
  destruct (main_effect getenv endpoint args df w) as (x & Sx & ->).
  destruct Sx as (_ & _ & _ & _ & _ & _ & Hl).
  destruct (Hl Hd) as (_ & Hs & _ & Hb & _).
  cbn [fst snd failed total_processed successful_generated].
  split; [lia|]. split; [lia|]. rewrite Hs.
  destruct (new_entries x) as [|e l]; [reflexivity|].
  cbn [List.length]. destruct (Z.eqb_spec (Z.of_nat (S (List.length l))) 0) as [H|_];
    [lia|].
  destruct (to_csv (e :: l)); reflexivity.
Qed.

(** ** The further properties at work on the example inputs *)

Lemma generate_email_stops_at_first_answer_witness :
  let r := generate_for no_environment fails_every_other live alice boot in
  nonempty_name (contact_of alice) = true /\
  fails_every_other 0%nat (request_of no_environment live alice) = Raised "Timeout" /\
  fst r = Some "Dear reader" /\
  calls (log (snd r)) = 2%nat /\
  sleeps (log (snd r)) = [5%Q].
Proof.
  intros r.
  assert (Hf : forall i, (i < 1)%nat ->
                 exists e, fails_every_other (i + served boot)%nat
                             (request_of no_environment live alice) = Raised e).
  { intros i Hi. exists "Timeout". destruct i as [|i]; [reflexivity | lia]. }
  destruct (generate_email_stops_at_first_answer no_environment fails_every_other
              (get alice "Company Name" (Str "")) (get alice "Industry Focus" (Str ""))
              (contact_of alice) (get alice "Position / Role" (Str ""))
              (get alice "Notes" (Str "")) (model live) boot 1 "Dear reader"
              eq_refl (le_S _ _ (le_n 1)) Hf eq_refl) as (H1 & H2 & H3).
  split; [reflexivity|]. split; [reflexivity|].
  split; [exact (f_equal fst H1)|]. split; [exact H2 | exact H3].
Defined.

Lemma generate_email_sends_at_most_three_requests_witness :
  let r := generate_for no_environment always_fails live alice boot in
  nonempty_name (contact_of alice) = true /\
  exists (k : nat) (s : string),
    (k <= 2)%nat /\
    fst r = Some s /\
    served (snd r) = (S k + served boot)%nat /\
    calls (log (snd r)) = (calls (log boot) + S k)%nat /\
    sleeps (log (snd r)) = (sleeps (log boot) ++ firstn k [5%Q; 10%Q])%list /\
    (trimmed s = true \/ prefix error_marker s = true).
Proof.
  intros r. split; [reflexivity|].
  exact (generate_email_sends_at_most_three_requests no_environment always_fails
           (get alice "Company Name" (Str "")) (get alice "Industry Focus" (Str ""))
           (contact_of alice) (get alice "Position / Role" (Str ""))
           (get alice "Notes" (Str "")) (model live) boot eq_refl).
Defined.

Lemma blank_answer_counts_as_failure_witness :
  let w' := {| served := 1; log := [Call (request_of no_environment live alice)] |} in
  named alice = true /\
  dry_run live = false /\
  blank "   " = true /\
  generate_for no_environment (answers "   ") live alice boot = (Some "", w') /\
  iteration no_environment (answers "   ") live alice start boot =
    ({| output_data := []; total_contacts := 1; successful_emails := 0 |}, w').
Proof.
  intros w'.
  destruct (blank_answer_counts_as_failure no_environment (answers "   ") live alice
              start boot "   " eq_refl eq_refl eq_refl eq_refl) as [H1 H2].
  split; [reflexivity|]. split; [reflexivity|]. split; [reflexivity|].
  split; [exact H1 | exact H2].
Defined.

Lemma live_emails_are_trimmed_witness :
  dry_run live = false /\
  Forall
    (fun e =>
       exists s, Email_Content e = Some s /\ s <> "" /\
                 prefix error_marker s = false /\ trimmed s = true)
    (fst (fst (main no_environment fails_twice live [alice; bob] boot))).
Proof.
  split; [reflexivity|].
  exact (live_emails_are_trimmed no_environment fails_twice live [alice; bob] boot
           eq_refl).
Defined.

Lemma live_run_request_bounds_witness :
  let run := main no_environment fails_every_other live [alice; nameless; bob] boot in
  dry_run live = false /\
  total_processed (snd (fst run)) = 2 /\
  exists n : nat,
    calls (log (snd run)) = (calls (log boot) + n)%nat /\
    served (snd run) = (n + served boot)%nat /\
    total_processed (snd (fst run)) <= Z.of_nat n <= 3 * total_processed (snd (fst run)).
Proof.
  intros run. split; [reflexivity|]. split; [reflexivity|].
  exact (live_run_request_bounds no_environment fails_every_other live
           [alice; nameless; bob] boot eq_refl).
Defined.

Lemma limit_caps_the_run_witness :
  let run := main no_environment always_fails (live_first 2) [alice; bob; alice] boot in
  0 < limit (live_first 2) /\
  total_processed (snd (fst run)) <= 2 /\
  Z.of_nat (List.length (fst (fst run))) <= 2 /\
  Z.of_nat (calls (log (snd run))) <= Z.of_nat (calls (log boot)) + 3 * 2.
Proof.
  intros run. split; [reflexivity|].
  exact (limit_caps_the_run no_environment always_fails (live_first 2)
           [alice; bob; alice] boot eq_refl).
Defined.

Lemma limit_out_of_range_is_no_limit_witness :
  limit (live_first (-3)) <= 0 /\
  main no_environment fails_twice (live_first (-3)) [alice; bob] boot =
    main no_environment fails_twice live [alice; bob] boot.
Proof.
  assert (H : limit (live_first (-3)) <= 0) by (simpl; lia).
  split; [exact H|].
  exact (limit_out_of_range_is_no_limit no_environment fails_twice (live_first (-3))
           [alice; bob] boot (or_introl H)).
Defined.

Lemma missing_contact_column_gives_nothing_witness :
  get mislabelled "contact name" (Str "") = Str "Dana" /\
  main no_environment (answers "Dear reader") live [mislabelled; mislabelled] boot =
    ([], {| total_processed := 0; successful_generated := 0; failed := 0 |}, boot).
Proof.
  split; [reflexivity|].
  apply (missing_contact_column_gives_nothing no_environment (answers "Dear reader")
           live [mislabelled; mislabelled] boot).
  repeat constructor; simpl; intros [H|[H|[]]]; discriminate H.
Defined.

Lemma later_rows_only_add_witness :
  let run1 := main no_environment fails_twice live [alice] boot in
  let run := main no_environment fails_twice live ([alice] ++ [nameless; bob]) boot in
  limit live <= 0 /\
  exists (out : list entry) (added : list event),
    fst (fst run) = (fst (fst run1) ++ out)%list /\
    log (snd run) = (log (snd run1) ++ added)%list /\
    total_processed (snd (fst run)) =
      total_processed (snd (fst run1)) +
      Z.of_nat (List.length (filter named [nameless; bob])).
Proof.
  intros run1 run.
  assert (H : limit live <= 0) by (simpl; lia).
  split; [exact H|].
  exact (later_rows_only_add no_environment fails_twice live [alice] [nameless; bob]
           boot H).
Defined.

Lemma endpoint_down_run_witness :
  let run := main no_environment always_fails live [alice; nameless; bob] boot in
  dry_run live = false /\
  fst run = ([], {| total_processed := 2; successful_generated := 0; failed := 2 |}) /\
  served (snd run) = 6%nat /\
  sleeps (log (snd run)) = [5%Q; 10%Q; 5%Q; 10%Q].
Proof.
  intros run.
  destruct (endpoint_down_run no_environment always_fails live [alice; nameless; bob]
              boot eq_refl (fun _ _ => ex_intro _ "Connection error." eq_refl))
    as (H1 & H2 & H3).
  split; [reflexivity|]. split; [exact H1|]. split; [exact H2|].
  subst run. rewrite H3. reflexivity.
Defined.

Lemma endpoint_answers_run_witness :
  let run := main no_environment (answers "Dear reader") live [alice; nameless; bob] boot in
  dry_run live = false /\
  usable (Some (strip "Dear reader")) = true /\
  map entry_key (fst (fst run)) = [row_key alice; row_key bob] /\
  snd (fst run) = {| total_processed := 2; successful_generated := 2; failed := 0 |} /\
  served (snd run) = 2%nat /\
  sleeps (log (snd run)) = [(1 # 2)%Q; (1 # 2)%Q].
Proof.
  intros run.
  destruct (endpoint_answers_run no_environment (answers "Dear reader") live
              [alice; nameless; bob] boot eq_refl
              (fun _ _ => ex_intro _ "Dear reader" (conj eq_refl eq_refl)))
    as (H1 & H2 & H3 & H4).
  split; [reflexivity|]. split; [reflexivity|]. split; [exact H1|].
  split; [exact H2|]. split; [exact H3|].
  subst run. rewrite H4. reflexivity.
Defined.

Lemma simulated_run_writes_placeholders_witness :
  let entries := [entry_of alice (Some "[DRY RUN] Sample email for Alice")] in
  let s := {| total_processed := 1; successful_generated := 2; failed := -1 |} in
  dry_run (simulated_first 1) = true /\
  main_with_files no_environment always_fails writable (simulated_first 1)
    (inr [alice; bob]) boot = (Finished (Some entries) s, boot) /\
  main_with_files no_environment always_fails no_such_directory (simulated_first 1)
    (inr [alice; bob]) boot =
    (Crashed "Cannot save file into a non-existent directory", boot).
Proof.
  intros entries s.
  split; [reflexivity|]. split.
  - exact (simulated_run_writes_placeholders no_environment always_fails writable
             (simulated_first 1) [alice; bob] boot eq_refl).
  - exact (simulated_run_writes_placeholders no_environment always_fails
             no_such_directory (simulated_first 1) [alice; bob] boot eq_refl).
Defined.

Lemma live_file_matches_summary_witness :
  let s := {| total_processed := 1; successful_generated := 1; failed := 0 |} in
  let out := [entry_of alice (Some "Dear reader")] in
  dry_run live = false /\
  fst (main_with_files no_environment (answers "Dear reader") writable live
         (inr [alice]) boot) = Finished (Some out) s /\
  fst (main_with_files no_environment (answers "Dear reader") no_such_directory live
         (inr [alice]) boot) = Crashed "Cannot save file into a non-existent directory" /\
  fst (main_with_files no_environment always_fails no_such_directory live
         (inr [alice]) boot) =
    Finished None {| total_processed := 1; successful_generated := 0; failed := 1 |}.
Proof.
  intros s out.
  destruct (live_file_matches_summary no_environment (answers "Dear reader") writable
              live [alice] boot eq_refl) as (_ & _ & H1).
  destruct (live_file_matches_summary no_environment (answers "Dear reader")
              no_such_directory live [alice] boot eq_refl) as (_ & _ & H2).
  destruct (live_file_matches_summary no_environment always_fails no_such_directory
              live [alice] boot eq_refl) as (_ & _ & H3).
  split; [reflexivity|]. split; [exact H1|]. split; [exact H2 | exact H3].
Defined.
